(** * exps_e2e: stratified subsampling, class-balanced sampling weights and
      the metric aggregation pipeline

    Shallow embedding of [exps_e2e.py]: [numparams], [get_metrics],
    [subsample_const_size], [define_sampler] and the loader / report part of
    [main].  Python exceptions are values of [result]; the global NumPy
    random state and the calls made to the external metric aggregator are
    threaded explicitly through a state-and-exception monad. *)

From Stdlib Require Import ZArith QArith Uint63 PrimFloat.
From stdpp Require Import base list strings gmap sorting pretty.

(** ** Python results *)

Inductive exception :=
  | ValueError (msg : string)
  | KeyError (key : string)
  | IndexError
  | ZeroDivisionError
  | InvalidIndexError.

Inductive result (A : Type) :=
  | Ok (a : A)
  | Raise (e : exception).
Arguments Ok {A} a.
Arguments Raise {A} e.

(** A computation that reads and updates a state [S] and may raise. *)
Definition M (S A : Type) : Type := S → result (A * S).

Definition ret {S A} (a : A) : M S A := λ s, Ok (a, s).

Definition bind {S A B} (m : M S A) (k : A → M S B) : M S B := λ s,
  match m s with
  | Ok (a, s') => k a s'
  | Raise e => Raise e
  end.

Definition raise {S A} (e : exception) : M S A := λ _, Raise e.

Definition lift_result {S A} (r : result A) : M S A := λ s,
  match r with
  | Ok a => Ok (a, s)
  | Raise e => Raise e
  end.

Declare Scope py_scope.
Delimit Scope py_scope with py.
Notation "'do' x <- m ; k" := (bind m (λ x, k))
  (at level 10, x name, m at level 100, k at level 200,
   format "'[v' 'do'  x  <-  m ; '/' k ']'") : py_scope.
Local Open Scope py_scope.

(** ** The parts of NumPy the program calls *)

Module np.

(** [labels == lbl]: the element-wise comparison mask. *)
Definition eq (labels : list Z) (lbl : Z) : list bool :=
  (λ x, bool_decide (x = lbl)) <$> labels.

(** [mask.sum()]: the number of [True] entries. *)
Definition sum (mask : list bool) : nat := length (filter (λ b, b = true) mask).

Fixpoint argwhere_from (i : nat) (mask : list bool) : list nat :=
  match mask with
  | [] => []
  | b :: mask' =>
      if b then i :: argwhere_from (S i) mask' else argwhere_from (S i) mask'
  end.

(** [np.argwhere(mask).flatten()] and [np.where(mask)[0]]: the positions of
    the [True] entries, ascending. *)
Definition argwhere (mask : list bool) : list nat := argwhere_from 0 mask.

(** [np.unique]: the sorted array of the distinct values. *)
Definition unique (labels : list Z) : list Z :=
  remove_dups (merge_sort Z.le labels).

(** [a[idx]] for an index array [idx]; an index out of range raises. *)
Fixpoint take {A} (a : list A) (idx : list nat) : result (list A) :=
  match idx with
  | [] => Ok []
  | i :: idx' =>
      match a !! i with
      | None => Raise IndexError
      | Some x =>
          match take a idx' with
          | Ok xs => Ok (x :: xs)
          | Raise e => Raise e
          end
      end
  end.

Module random.

(** The global generator: an unbounded supply of raw draws and the number
    of draws consumed so far. *)
Record RandomState := mkRandomState { draws : nat → nat; pos : nat }.

(** One bounded draw in [0, max]: the next outcome of the generator, brought
    into the interval. *)
Definition rk_interval (max : nat) (g : RandomState) : nat * RandomState :=
  (draws g (pos g) mod S max, mkRandomState (draws g) (S (pos g))).

(** [x[i], x[j] = x[j], x[i]] *)
Definition swap (x : list nat) (i j : nat) : list nat :=
  match x !! i, x !! j with
  | Some a, Some b => <[i:=b]> (<[j:=a]> x)
  | _, _ => x
  end.

(** [for i in reversed(range(1, n)): j = rk_interval(i); swap x[i], x[j]] *)
Fixpoint shuffle_loop (i : nat) (x : list nat) (g : RandomState)
  : list nat * RandomState :=
  match i with
  | O => (x, g)
  | S i' =>
      let '(j, g') := rk_interval i g in
      shuffle_loop i' (swap x i j) g'
  end.

Definition shuffle (x : list nat) (g : RandomState) : list nat * RandomState :=
  shuffle_loop (length x - 1) x g.

(** [permutation(n)]: [arange(n)] shuffled. *)
Definition permutation (n : nat) (g : RandomState) : list nat * RandomState :=
  shuffle (seq 0 n) g.

(** [np.random.choice(a, size, replace=False)] for a one-dimensional [a]
    and an integer [size]. *)
Definition choice (a : list nat) (size : Z) : M RandomState (list nat) := λ g,
  let pop_size := length a in
  if decide (pop_size = 0%nat ∧ size ≠ 0%Z) then
    Raise (ValueError "'a' cannot be empty unless no samples are taken")
  else if decide (Z.of_nat pop_size < size)%Z then
    Raise (ValueError "Cannot take a larger sample than population when 'replace=False'")
  else if decide (size < 0)%Z then
    Raise (ValueError "negative dimensions are not allowed")
  else
    let '(perm, g') := permutation pop_size g in
    match take a (firstn (Z.to_nat size) perm) with
    | Ok chosen => Ok (chosen, g')
    | Raise e => Raise e
    end.

End random.

End np.

(** ** Crops *)

(** A labelled crop.  Only [_label] is read by this program; the rest of the
    object is opaque and stands here as [crop_id]. *)
Record CellCrop := mkCrop { _label : Z; crop_id : nat }.

Global Instance CellCrop_eq_dec : EqDecision CellCrop.
Proof. solve_decision. Defined.

Global Instance CellCrop_inhabited : Inhabited CellCrop := populate (mkCrop 0 0).

(** ** [subsample_const_size] *)

(** The body of the loop for one label: the indices chosen for [lbl]. *)
Definition choose_indices (labels : list Z) (size : Z) (lbl : Z)
  : M np.random.RandomState (list nat) :=
  let indices := np.argwhere (np.eq labels lbl) in
  if decide (Z.of_nat (np.sum (np.eq labels lbl)) < size)%Z then ret indices
  else np.random.choice indices size.

Fixpoint subsample_loop (crops : list CellCrop) (labels : list Z) (size : Z)
  (lbls : list Z) (final_crops : list CellCrop)
  : M np.random.RandomState (list CellCrop) :=
  match lbls with
  | [] => ret final_crops
  | lbl :: lbls' =>
      do chosen_indices <- choose_indices labels size lbl;
      do picked <- lift_result (np.take crops chosen_indices);
      subsample_loop crops labels size lbls' (final_crops ++ picked)
  end.

Definition subsample_const_size (crops : list CellCrop) (size : Z)
  : M np.random.RandomState (list CellCrop) :=
  let labels := _label <$> crops in
  subsample_loop crops labels size (np.unique labels) [].

(** The index arrays chosen by the same loop, one per label, in the order of
    the loop: [subsample_const_size] returns the crops at these indices. *)
Fixpoint chosen_groups (labels : list Z) (size : Z) (lbls : list Z)
  : M np.random.RandomState (list (Z * list nat)) :=
  match lbls with
  | [] => ret []
  | lbl :: lbls' =>
      do chosen_indices <- choose_indices labels size lbl;
      do groups <- chosen_groups labels size lbls';
      ret ((lbl, chosen_indices) :: groups)
  end.

Definition subsample_indices (crops : list CellCrop) (size : Z)
  : M np.random.RandomState (list (Z * list nat)) :=
  let labels := _label <$> crops in
  chosen_groups labels size (np.unique labels).

(** Number of items of a population that carry label [lbl]. *)
Definition count_label (lbl : Z) (crops : list CellCrop) : nat :=
  length (filter (λ c, _label c = lbl) crops).

(** The crops at the chosen indices, group after group. *)
Definition gathered (crops : list CellCrop) (groups : list (Z * list nat))
  : list CellCrop :=
  groups ≫= (λ grp, (λ i, crops !!! i) <$> grp.2).

(** What the loop guarantees of the indices [grp.2] chosen for label [lbl]
    when [size] is not negative. *)
Definition group_ok (labels : list Z) (size : Z) (lbl : Z)
  (grp : Z * list nat) : Prop :=
  grp.1 = lbl ∧
  length grp.2 = (length (filter (λ x, x = lbl) labels) `min` Z.to_nat size)%nat ∧
  NoDup grp.2 ∧
  Forall (λ i, labels !! i = Some lbl) grp.2 ∧
  ((length (filter (λ x, x = lbl) labels) ≤ Z.to_nat size)%nat →
   grp.2 ≡ₚ np.argwhere (np.eq labels lbl)).

(** ** [define_sampler] *)

Definition rbind {A B} (r : result A) (k : A → result B) : result B :=
  match r with
  | Ok a => k a
  | Raise e => Raise e
  end.

Notation "'try' x <- r ; k" := (rbind r (λ x, k))
  (at level 10, x name, r at level 100, k at level 200,
   format "'[v' 'try'  x  <-  r ; '/' k ']'") : py_scope.

(** Python's [a / b] on two integers, in the arithmetic [R]. *)
Class TrueDiv (R : Type) := true_div : Z → Z → R.

Definition Z2float (z : Z) : float := PrimFloat.of_uint63 (Uint63.of_Z z).

(** The arithmetic of the program: IEEE binary64.  The conversion is exact
    for counts below 2^53, more than any population held in memory. *)
Global Instance float_true_div : TrueDiv float := λ a b,
  PrimFloat.div (Z2float a) (Z2float b).

(** Exact arithmetic: the rationals. *)
Global Instance Q_true_div : TrueDiv Q := λ a b,
  Qdiv (inject_Z a) (inject_Z b).

Definition py_div {R} `{TrueDiv R} (a b : Z) : result R :=
  if decide (b = 0%Z) then Raise ZeroDivisionError else Ok (true_div a b).

(** [str(l)] of an integer label. *)
Definition str (l : Z) : string := pretty l.

(** [[hierarchy_match[str(l)] for l in labels]]; category identifiers are
    integers. *)
Fixpoint map_labels (hierarchy_match : gmap string Z) (labels : list Z)
  : result (list Z) :=
  match labels with
  | [] => Ok []
  | l :: labels' =>
      match hierarchy_match !! str l with
      | None => Raise (KeyError (str l))
      | Some c =>
          try cs <- map_labels hierarchy_match labels';
          Ok (c :: cs)
      end
  end.

(** Lines 77-79: the category of every item. *)
Definition categories (crops : list CellCrop)
  (hierarchy_match : option (gmap string Z)) : result (list Z) :=
  let labels := _label <$> crops in
  match hierarchy_match with
  | Some hm => map_labels hm labels
  | None => Ok labels
  end.

(** A dict with integer keys, in insertion order. *)
Fixpoint getitem {V} (d : list (Z * V)) (k : Z) : result V :=
  match d with
  | [] => Raise (KeyError (str k))
  | (k', v) :: d' => if decide (k = k') then Ok v else getitem d' k
  end.

(** [{t: len(np.where(labels == t)[0]) for t in unique_labels}] *)
Definition class_sample_count (labels : list Z) : list (Z * nat) :=
  (λ t, (t, length (np.argwhere (np.eq labels t)))) <$> np.unique labels.

(** [sum(class_sample_count.values())] *)
Definition sum_values (d : list (Z * nat)) : nat := sum_list (snd <$> d).

(** [{k: sum(class_sample_count.values()) / v for k, v in ...items()}] *)
Fixpoint weight_items {R} `{TrueDiv R} (total : nat) (items : list (Z * nat))
  : result (list (Z * R)) :=
  match items with
  | [] => Ok []
  | (k, v) :: items' =>
      try w <- py_div (Z.of_nat total) (Z.of_nat v);
      try ws <- weight_items total items';
      Ok ((k, w) :: ws)
  end.

(** [[weight[t] for t in labels]] *)
Fixpoint lookup_all {V} (d : list (Z * V)) (labels : list Z) : result (list V) :=
  match labels with
  | [] => Ok []
  | t :: labels' =>
      try w <- getitem d t;
      try ws <- lookup_all d labels';
      Ok (w :: ws)
  end.

(** Lines 77-85: the per-item weight vector. *)
Definition samples_weight {R} `{TrueDiv R} (crops : list CellCrop)
  (hierarchy_match : option (gmap string Z)) : result (list R) :=
  try labels <- categories crops hierarchy_match;
  let counts := class_sample_count labels in
  try weight <- weight_items (sum_values counts) counts;
  lookup_all weight labels.

Record WeightedRandomSampler (R : Type) := mkSampler {
  weights : list R;
  num_samples : nat;
  replacement : bool
}.
Arguments mkSampler {R} _ _ _.
Arguments weights {R} _.
Arguments num_samples {R} _.
Arguments replacement {R} _.

(** The constructor of the sampler rejects a draw count that is not
    positive. *)
Definition new_WeightedRandomSampler {R} (weights : list R) (num_samples : nat)
  : result (WeightedRandomSampler R) :=
  if decide (num_samples = 0%nat) then
    Raise (ValueError "num_samples should be a positive integer value")
  else Ok (mkSampler weights num_samples true).

Definition define_sampler {R} `{TrueDiv R} (crops : list CellCrop)
  (hierarchy_match : option (gmap string Z))
  : result (WeightedRandomSampler R) :=
  try weights <- samples_weight crops hierarchy_match;
  new_WeightedRandomSampler weights (length weights).

(** Number of items whose category is [c]. *)
Definition count_cat (c : Z) (cats : list Z) : nat :=
  length (filter (λ x, x = c) cats).

(** ** The parts of pandas the program calls *)

Inductive cell :=
  | Float (x : float)
  | Str (s : string)
  | Int (n : Z)
  | NaN.

(** A table: row labels, and the columns in order, each a name with one cell
    per row. *)
Record DataFrame := mkDataFrame {
  index : list Z;
  columns : list (string * list cell)
}.

Definition names (df : DataFrame) : list string := fst <$> columns df.
Definition nrows (df : DataFrame) : nat := length (index df).

(** Every column has one cell per row. *)
Definition well_formed (df : DataFrame) : Prop :=
  Forall (λ c, length (snd c) = nrows df) (columns df).

(** [df[name]]: the first column called [name]. *)
Fixpoint column (name : string) (cols : list (string * list cell))
  : option (list cell) :=
  match cols with
  | [] => None
  | (n, col) :: cols' => if decide (n = name) then Some col else column name cols'
  end.

Module pd.

Fixpoint position (r : Z) (idx : list Z) : option nat :=
  match idx with
  | [] => None
  | r' :: idx' => if decide (r' = r) then Some O else S <$> position r idx'
  end.

(** The union of row labels (or of column names), in order of first
    appearance. *)
Definition union {A} `{EqDecision A} (ls : list (list A)) : list A :=
  foldl (λ acc l, acc ++ filter (λ x, x ∉ acc) l) [] ls.

(** The columns of [df] laid out on the row labels [idx]; a label [df] does
    not have gives a missing value. *)
Definition reindex (idx : list Z) (df : DataFrame) : list (string * list cell) :=
  (λ c, (fst c,
         (λ r, match position r (index df) with
               | Some i => default NaN (snd c !! i)
               | None => NaN
               end) <$> idx)) <$> columns df.

(** [pd.concat(frames, axis=1)]: the columns side by side, aligned on the row
    labels. *)
Definition concat_columns (frames : list DataFrame) : result DataFrame :=
  match frames with
  | [] => Raise (ValueError "No objects to concatenate")
  | f :: fs =>
      if decide (Forall (λ g, index g = index f) fs) then
        Ok (mkDataFrame (index f) (frames ≫= columns))
      else if decide (Forall (λ g, NoDup (index g)) frames) then
        let idx := union (index <$> frames) in
        Ok (mkDataFrame idx (frames ≫= reindex idx))
      else Raise InvalidIndexError
  end.

(** The cells of column [name] of [df], or missing values. *)
Definition column_or_missing (name : string) (df : DataFrame) : list cell :=
  default (replicate (nrows df) NaN) (column name (columns df)).

(** [pd.concat(frames)]: the rows one under the other, on the union of the
    columns. *)
Definition concat (frames : list DataFrame) : result DataFrame :=
  match frames with
  | [] => Raise (ValueError "No objects to concatenate")
  | f :: fs =>
      if decide (Forall (λ g, names g = names f) fs) then
        Ok (mkDataFrame (frames ≫= index)
              (imap (λ i c, (fst c,
                  frames ≫= (λ g, default [] (snd <$> columns g !! i))))
                 (columns f)))
      else if decide (Forall (λ g, NoDup (names g)) frames) then
        Ok (mkDataFrame (frames ≫= index)
              ((λ n, (n, frames ≫= column_or_missing n))
                 <$> union (names <$> frames)))
      else Raise InvalidIndexError
  end.

(** [df[name] = v] for a scalar [v]: every column called [name] is
    overwritten, or a new last column is added. *)
Definition setitem (df : DataFrame) (name : string) (v : cell) : DataFrame :=
  let col := replicate (nrows df) v in
  if decide (name ∈ names df) then
    mkDataFrame (index df)
      ((λ c, if decide (fst c = name) then (fst c, col) else c) <$> columns df)
  else mkDataFrame (index df) (columns df ++ [(name, col)]).

End pd.

(** ** The model, the loaders and the metric aggregator *)

Record Tensor := mkTensor { shape : list nat }.

(** [p.numel()] *)
Definition numel (p : Tensor) : nat := foldr Nat.mul 1%nat (shape p).

Record Model := mkModel { parameters : list Tensor }.

Definition numparams (model : Model) : nat :=
  sum_list (numel <$> parameters model).

Record Args := mkArgs {
  output_dir : string;
  modelname : string;
  num_datapoints : Z;
  base_path : string
}.

Inductive Transform :=
  | train_transform (crop_input_size shift : Z)
  | val_transform (crop_input_size : Z).

Record CellCropsDataset := mkDataset {
  dataset_crops : list CellCrop;
  transform : Transform;
  mask : bool
}.

Record DataLoader := mkDataLoader {
  dataset : CellCropsDataset;
  batch_size : Z;
  num_workers : Z;
  sampler : option (WeightedRandomSampler float);
  shuffle : bool
}.

(** The two metric procedures handed to the aggregator,
    [partial(get_lee_metrics, model)] and
    [partial(get_discrete_metrics, model)]. *)
Inductive MetricFamily := get_lee_metrics | get_discrete_metrics.

(** [DataLoader(dataset, batch_size=..., num_workers=..., sampler=...,
    shuffle=...)]: the constructor rejects a negative number of workers, a
    sampler together with shuffling, and (when it builds the batch sampler) a
    batch size that is not positive. *)
Definition new_DataLoader (dataset : CellCropsDataset) (batch_size num_workers : Z)
  (sampler : option (WeightedRandomSampler float)) (shuffle : bool)
  : result DataLoader :=
  if decide (num_workers < 0)%Z then
    Raise (ValueError
      "num_workers option should be non-negative; use num_workers=0 to disable multiprocessing.")
  else if bool_decide (is_Some sampler) && shuffle then
    Raise (ValueError "sampler option is mutually exclusive with shuffle")
  else if decide (batch_size ≤ 0)%Z then
    Raise (ValueError
      ("batch_size should be a positive integer value, but got batch_size="
       +:+ pretty batch_size))
  else Ok (mkDataLoader dataset batch_size num_workers sampler shuffle).

(** The aggregator [eval_average_metrics_wstd] is not part of this file: it is
    a parameter.  From a loader, a metric procedure on a model and a batch
    cap it computes a table; it runs the loader and the model, so it may
    raise, and it may draw from the NumPy generator. *)
Definition Aggregator : Type :=
  DataLoader → MetricFamily → Model → Z → M np.random.RandomState DataFrame.

(** The state of a run: the NumPy generator and the calls of the aggregator
    that have returned so far. *)
Record World := mkWorld {
  rng : np.random.RandomState;
  eval_log : list (DataLoader * MetricFamily)
}.

Definition with_rng {A} (m : M np.random.RandomState A) : M World A := λ w,
  match m (rng w) with
  | Ok (a, g) => Ok (a, mkWorld g (eval_log w))
  | Raise e => Raise e
  end.

Definition call_aggregator (eval_average_metrics_wstd : Aggregator)
  (loader : DataLoader) (family : MetricFamily) (model : Model) (max_mbs : Z)
  : M World DataFrame := λ w,
  match eval_average_metrics_wstd loader family model max_mbs (rng w) with
  | Ok (metrics, g) => Ok (metrics, mkWorld g (eval_log w ++ [(loader, family)]))
  | Raise e => Raise e
  end.

(** ** [get_metrics] *)

Definition get_metrics (eval_average_metrics_wstd : Aggregator) (args : Args)
  (key : string) (loader : DataLoader) (model : Model) (max_mbs : Z)
  : M World DataFrame :=
  do discrete_metrics <-
    call_aggregator eval_average_metrics_wstd loader get_discrete_metrics model max_mbs;
  do lee_metrics <-
    call_aggregator eval_average_metrics_wstd loader get_lee_metrics model max_mbs;
  do metrics <- lift_result (pd.concat_columns [lee_metrics; discrete_metrics]);
  let metrics := pd.setitem metrics "dataset" (Str key) in
  let metrics := pd.setitem metrics "model" (Str (modelname args)) in
  let metrics := pd.setitem metrics "params" (Int (Z.of_nat (numparams model))) in
  ret metrics.

(** ** [main], from the loaded crops to the report *)

Record Config := mkConfig {
  cfg_batch_size : Z;
  cfg_num_workers : Z;
  sample_batch : bool;
  hierarchy_match : option (gmap string Z);
  size_data : option Z;
  crop_input_size : option Z;
  aug : option bool
}.

(** The local variables of [main] the report depends on, and the report. *)
Record MainLocals := mkMainLocals {
  train_loader : DataLoader;
  train_loader_for_eval : DataLoader;
  val_loader : DataLoader;
  evaluated_metrics : list DataFrame;
  df : DataFrame
}.

(** [get_metrics] over a list of (key, loader) pairs, in order. *)
Fixpoint get_metrics_each (eval_average_metrics_wstd : Aggregator) (args : Args)
  (model : Model) (pairs : list (string * DataLoader))
  : M World (list DataFrame) :=
  match pairs with
  | [] => ret []
  | (key, loader) :: pairs' =>
      do row <- get_metrics eval_average_metrics_wstd args key loader model 400;
      do rows <- get_metrics_each eval_average_metrics_wstd args model pairs';
      ret (row :: rows)
  end.

(** [main] from the crops it loaded to the report it concatenates: the
    label filter, the optional subsampling, the sampler, the three datasets
    and loaders, [get_metrics] on the training and on the validation loader,
    and [pd.concat].  The configuration file, the construction of the model
    and the files written are not part of it. *)
Definition main (eval_average_metrics_wstd : Aggregator) (args : Args)
  (config : Config) (loaded_train_crops loaded_val_crops : list CellCrop)
  (model : Model) : M World MainLocals :=
  let train_crops := filter (λ c, (0 ≤ _label c)%Z) loaded_train_crops in
  let val_crops := filter (λ c, (0 ≤ _label c)%Z) loaded_val_crops in
  do train_crops <-
    match size_data config with
    | Some size => with_rng (subsample_const_size train_crops size)
    | None => ret train_crops
    end;
  do val_crops <-
    match size_data config with
    | Some size => with_rng (subsample_const_size val_crops size)
    | None => ret val_crops
    end;
  do sampler <- lift_result (define_sampler train_crops (hierarchy_match config));
  let shift := 5%Z in
  let crop_input_size := default 100%Z (crop_input_size config) in
  let aug := default true (aug config) in
  let training_transform :=
    if aug then train_transform crop_input_size shift
    else val_transform crop_input_size in
  let train_dataset := mkDataset train_crops training_transform true in
  let val_dataset := mkDataset val_crops (val_transform crop_input_size) true in
  let train_dataset_for_eval :=
    mkDataset train_crops (val_transform crop_input_size) true in
  do train_loader <- lift_result
    (new_DataLoader train_dataset (cfg_batch_size config) (cfg_num_workers config)
       (if sample_batch config then Some sampler else None)
       (if sample_batch config then false else true));
  do train_loader_for_eval <- lift_result
    (new_DataLoader train_dataset_for_eval (cfg_batch_size config)
       (cfg_num_workers config) None false);
  do val_loader <- lift_result
    (new_DataLoader val_dataset (cfg_batch_size config) (cfg_num_workers config)
       None false);
  do rows <- get_metrics_each eval_average_metrics_wstd args model
      [("Imagenet_train", train_loader); ("Imagenet_test", val_loader)];
  let evaluated_metrics := [] ++ rows in
  do df <- lift_result (pd.concat evaluated_metrics);
  ret (mkMainLocals train_loader train_loader_for_eval val_loader
         evaluated_metrics df).

(** The sum of a weight vector in exact arithmetic. *)
Definition Qsum (l : list Q) : Q := foldr Qplus 0%Q l.

(** The weight of an item of category [c] in a population with categories
    [cats]: the number of items over the number of items of category [c]. *)
Definition inverse_frequency {R} `{TrueDiv R} (cats : list Z) (c : Z) : R :=
  true_div (Z.of_nat (length cats)) (Z.of_nat (count_cat c cats)).

(** Modelled from the spec: [eval_average_metrics_wstd] (module [lee.loader],
    not part of this file) returns one aggregated-statistics row per metric
    family; the two rows of a loader carry the same row label, every column
    has one cell, and no column name occurs twice or is one of the three
    metadata names (collisions are not expected). *)
Definition aligned_rows (lee_metrics discrete_metrics : DataFrame) : Prop :=
  nrows lee_metrics = 1%nat ∧
  index discrete_metrics = index lee_metrics ∧
  well_formed lee_metrics ∧
  well_formed discrete_metrics ∧
  NoDup (names lee_metrics ++ names discrete_metrics
         ++ ["dataset"; "model"; "params"]).

(** The two calls of [get_metrics] for a loader, started with the generator
    [g], return: the call for the discrete family gives [discrete_metrics],
    and the call for the continuous family, made on the generator the first
    call left, gives [lee_metrics] and leaves the generator [g']. *)
Definition aggregator_returns (eval_average_metrics_wstd : Aggregator)
  (loader : DataLoader) (model : Model) (max_mbs : Z) (g : np.random.RandomState)
  (discrete_metrics lee_metrics : DataFrame) (g' : np.random.RandomState) : Prop :=
  ∃ g1,
    eval_average_metrics_wstd loader get_discrete_metrics model max_mbs g
    = Ok (discrete_metrics, g1) ∧
    eval_average_metrics_wstd loader get_lee_metrics model max_mbs g1
    = Ok (lee_metrics, g').

(** Modelled from the spec: in a run without evaluation error the aggregator
    returns, for the loader and whatever the state of the generator, the two
    aligned one-row tables. *)
Definition aggregator_ok (eval_average_metrics_wstd : Aggregator)
  (loader : DataLoader) (model : Model) (max_mbs : Z) : Prop :=
  ∀ g, ∃ discrete_metrics lee_metrics g',
    aggregator_returns eval_average_metrics_wstd loader model max_mbs g
      discrete_metrics lee_metrics g' ∧
    aligned_rows lee_metrics discrete_metrics.

(** The three metadata columns of a one-row table. *)
Definition metadata_columns (args : Args) (key : string) (model : Model)
  : list (string * list cell) :=
  [("dataset", [Str key]);
   ("model", [Str (modelname args)]);
   ("params", [Int (Z.of_nat (numparams model))])].

(** The row [get_metrics] builds from the two rows of the aggregator. *)
Definition merged_row (args : Args) (model : Model) (key : string)
  (lee_metrics discrete_metrics : DataFrame) : DataFrame :=
  mkDataFrame (index lee_metrics)
    (columns lee_metrics ++ columns discrete_metrics
     ++ metadata_columns args key model).

(** The calls [get_metrics] makes to the aggregator for one loader. *)
Definition calls_for (loader : DataLoader) : list (DataLoader * MetricFamily) :=
  [(loader, get_discrete_metrics); (loader, get_lee_metrics)].

(** ** Concrete inputs *)

(** A generator whose raw draws count up from 7. *)
Definition rng0 : np.random.RandomState :=
  np.random.mkRandomState (λ n, (7 + 3 * n)%nat) 0.

(** [n] crops of label [lbl], numbered from [start]. *)
Definition crops_of (lbl : Z) (start n : nat) : list CellCrop :=
  (λ i, mkCrop lbl i) <$> seq start n.

(** The population of the spec's scenarios: 80 crops of label 0 and 20 of
    label 1. *)
Definition population_80_20 : list CellCrop :=
  crops_of 0 0 80 ++ crops_of 1 80 20.

(** Three crops of label 0, then two of label 1. *)
Definition population_3_2 : list CellCrop :=
  crops_of 0 0 3 ++ crops_of 1 3 2.

(** Eleven crops of label 0 and four of label 1. *)
Definition population_11_4 : list CellCrop :=
  crops_of 0 0 11 ++ crops_of 1 11 4.

(** An aggregator that takes one draw from the generator at each call and
    returns the columns [lee_a], [lee_b] for the continuous family and
    [disc_x] for the discrete one, in one row. *)
Definition scenario_aggregator : Aggregator := λ loader family model max_mbs g,
  let '(_, g') := np.random.rk_interval 1 g in
  Ok (match family with
      | get_lee_metrics =>
          mkDataFrame [0%Z]
            [("lee_a", [Float 0.5%float]); ("lee_b", [Float 0.25%float])]
      | get_discrete_metrics =>
          mkDataFrame [0%Z] [("disc_x", [Float 0.125%float])]
      end, g').

(** An aggregator whose continuous family has a column called [dataset]. *)
Definition colliding_aggregator : Aggregator := λ loader family model max_mbs g,
  Ok (match family with
      | get_lee_metrics => mkDataFrame [0%Z] [("dataset", [Float 0.5%float])]
      | get_discrete_metrics => mkDataFrame [0%Z] [("disc_x", [Float 0.125%float])]
      end, g).

(** An aggregator whose two tables carry different row labels. *)
Definition misaligned_aggregator : Aggregator := λ loader family model max_mbs g,
  Ok (match family with
      | get_lee_metrics => mkDataFrame [0%Z] [("lee_a", [Float 0.5%float])]
      | get_discrete_metrics => mkDataFrame [1%Z] [("disc_x", [Float 0.125%float])]
      end, g).

Definition scenario_args : Args :=
  mkArgs "equivariance_metrics_cnns" "resnet18" 60 "".

Definition scenario_model : Model :=
  mkModel [mkTensor [3; 4]%nat; mkTensor [4]%nat].

Definition scenario_config : Config :=
  mkConfig 8 0 true None (Some 2%Z) None None.

Definition world0 : World := mkWorld rng0 [].

Definition scenario_loader (crops : list CellCrop) : DataLoader :=
  mkDataLoader (mkDataset crops (val_transform 100) true) 8 0 None false.

(** A category map with an entry for the labels 0 and 1, and one without an
    entry for label 1. *)
Definition hierarchy_both : gmap string Z := {[ "0" := 7%Z; "1" := 7%Z ]}.
Definition hierarchy_only_0 : gmap string Z := {[ "0" := 7%Z ]}.

(** * Properties *)

(** ** Masks and index arrays *)

Section masks.
Implicit Types (mask : list bool) (labels : list Z) (lbl : Z).

Lemma argwhere_from_length i mask :
  length (np.argwhere_from i mask) = np.sum mask.
Proof.
  revert i. induction mask as [|b mask IH]; intros i; [done|].
  unfold np.sum in *. destruct b.
  - rewrite filter_cons_True by done. simpl. by rewrite IH.
  - rewrite filter_cons_False by done. simpl. apply IH.
Qed.

Lemma argwhere_from_elem i mask j :
  j ∈ np.argwhere_from i mask ↔ (i ≤ j)%nat ∧ mask !! (j - i)%nat = Some true.
Proof.
  revert i. induction mask as [|b mask IH]; intros i; simpl.
  - rewrite elem_of_nil, lookup_nil. split; [done|]. by intros [_ ?].
  - assert (Hstep : j ∈ np.argwhere_from (S i) mask ↔
        (i < j)%nat ∧ (b :: mask) !! (j - i)%nat = Some true).
    { rewrite IH. split.
      - intros [Hle Hm]. split; [lia|].
        replace (j - i)%nat with (S (j - S i)) by lia. done.
      - intros [Hlt Hm]. split; [lia|].
        replace (j - i)%nat with (S (j - S i)) in Hm by lia. done. }
    destruct b.
    + rewrite elem_of_cons, Hstep. split.
      * intros [->|[Hlt Hm]].
        -- split; [lia|]. by rewrite Nat.sub_diag.
        -- split; [lia|done].
      * intros [Hle Hm]. destruct (decide (j = i)) as [->|Hne]; [by left|].
        right. split; [lia|done].
    + rewrite Hstep. split.
      * intros [Hlt Hm]. split; [lia|done].
      * intros [Hle Hm]. destruct (decide (j = i)) as [->|Hne].
        -- rewrite Nat.sub_diag in Hm. simpl in Hm. congruence.
        -- split; [lia|done].
Qed.

Lemma argwhere_from_NoDup i mask : NoDup (np.argwhere_from i mask).
Proof.
  revert i. induction mask as [|b mask IH]; intros i; simpl.
  - constructor.
  - destruct b; [|apply IH]. constructor; [|apply IH].
    rewrite argwhere_from_elem. lia.
Qed.

Lemma eq_mask_lookup labels lbl j :
  np.eq labels lbl !! j = Some true ↔ labels !! j = Some lbl.
Proof.
  unfold np.eq. rewrite list_lookup_fmap.
  destruct (labels !! j) as [x|]; simpl; [|done].
  case_bool_decide; split; congruence.
Qed.

Lemma sum_eq_mask labels lbl :
  np.sum (np.eq labels lbl) = length (filter (λ x, x = lbl) labels).
Proof.
  unfold np.sum, np.eq. induction labels as [|x labels IH]; [done|].
  rewrite fmap_cons. destruct (decide (x = lbl)) as [Hx|Hx].
  - rewrite filter_cons_True by (by apply bool_decide_eq_true).
    rewrite (filter_cons_True (λ x, x = lbl)) by done. simpl. by rewrite IH.
  - rewrite filter_cons_False
      by (rewrite bool_decide_eq_true; done).
    rewrite (filter_cons_False (λ x, x = lbl)) by done. apply IH.
Qed.

Lemma argwhere_eq_elem labels lbl j :
  j ∈ np.argwhere (np.eq labels lbl) ↔ labels !! j = Some lbl.
Proof.
  unfold np.argwhere. rewrite argwhere_from_elem, Nat.sub_0_r, eq_mask_lookup.
  split; [by intros [_ ?]|]. intros ?; split; [lia|done].
Qed.

Lemma argwhere_eq_length labels lbl :
  length (np.argwhere (np.eq labels lbl)) = length (filter (λ x, x = lbl) labels).
Proof. unfold np.argwhere. by rewrite argwhere_from_length, sum_eq_mask. Qed.

End masks.

Lemma count_label_labels lbl (crops : list CellCrop) :
  length (filter (λ x, x = lbl) (_label <$> crops)) = count_label lbl crops.
Proof.
  unfold count_label. induction crops as [|c crops IH]; [done|].
  rewrite fmap_cons. destruct (decide (_label c = lbl)) as [Hc|Hc].
  - rewrite !filter_cons_True by done. simpl. by rewrite IH.
  - rewrite !filter_cons_False by done. apply IH.
Qed.

(** ** Index arrays applied to an array *)

Section take.
Context {A : Type} `{Inhabited A}.
Implicit Types (a : list A) (idx : list nat).

Lemma take_in_range a idx :
  Forall (λ i, (i < length a)%nat) idx →
  np.take a idx = Ok ((λ i, a !!! i) <$> idx).
Proof.
  induction 1 as [|i idx Hi _ IH]; [done|]. simpl.
  destruct (lookup_lt_is_Some_2 a i Hi) as [x Hx]. rewrite Hx, IH.
  by rewrite (list_lookup_total_correct _ _ _ Hx).
Qed.

Lemma fmap_lookup_total_seq a :
  (λ i, a !!! i) <$> seq 0 (length a) = a.
Proof.
  apply list_eq; intros i. rewrite list_lookup_fmap.
  destruct (decide (i < length a)%nat) as [Hi|Hi].
  - rewrite lookup_seq_lt by done. simpl.
    destruct (lookup_lt_is_Some_2 a i Hi) as [x Hx].
    by rewrite Hx, (list_lookup_total_correct _ _ _ Hx).
  - rewrite lookup_seq_ge by lia. simpl. symmetry. apply lookup_ge_None. lia.
Qed.

End take.

(** ** The random generator: a shuffle permutes *)

Section shuffle.
Import np.random.
Implicit Types (x : list nat) (g : RandomState).

Lemma swap_Permutation x i j : swap x i j ≡ₚ x.
Proof.
  unfold swap.
  destruct (x !! i) as [a|] eqn:Hi; [|done].
  destruct (x !! j) as [b|] eqn:Hj; [|done].
  by apply Permutation_insert_swap.
Qed.

Lemma shuffle_loop_Permutation i x g : (shuffle_loop i x g).1 ≡ₚ x.
Proof.
  revert x g. induction i as [|i IH]; intros x g; [done|].
  cbn [shuffle_loop]. destruct (rk_interval (S i) g) as [j g'].
  rewrite IH. apply swap_Permutation.
Qed.

Lemma permutation_Permutation n g : (permutation n g).1 ≡ₚ seq 0 n.
Proof. apply shuffle_loop_Permutation. Qed.

Lemma permutation_NoDup n g : NoDup (permutation n g).1.
Proof. rewrite permutation_Permutation. apply NoDup_seq. Qed.

Lemma permutation_length n g : length (permutation n g).1 = n.
Proof. by rewrite permutation_Permutation, length_seq. Qed.

Lemma permutation_range n g i : i ∈ (permutation n g).1 → (i < n)%nat.
Proof. rewrite permutation_Permutation, elem_of_seq. lia. Qed.

(** A draw of [size] elements out of [a] without replacement: the elements at
    the first [size] positions of a permutation of the positions of [a]. *)
Lemma choice_in_range (a : list nat) (size : Z) g :
  (0 ≤ size ≤ Z.of_nat (length a))%Z →
  ∃ idx g',
    choice a size g = Ok ((λ i, a !!! i) <$> idx, g') ∧
    length idx = Z.to_nat size ∧
    NoDup idx ∧
    Forall (λ i, (i < length a)%nat) idx ∧
    (Z.to_nat size = length a → idx ≡ₚ seq 0 (length a)).
Proof.
  intros Hsize. unfold choice.
  destruct (permutation (length a) g) as [perm g'] eqn:Hperm.
  assert (Hp : perm = (permutation (length a) g).1) by (by rewrite Hperm).
  exists (firstn (Z.to_nat size) perm), g'.
  assert (Hrange : Forall (λ i, (i < length a)%nat) (firstn (Z.to_nat size) perm)).
  { apply Forall_forall. intros i Hi. apply (permutation_range _ g).
    rewrite <- Hp. apply elem_of_take in Hi as (k & Hk & _).
    by eapply list_elem_of_lookup_2. }
  rewrite decide_False by lia.
  rewrite decide_False by lia.
  rewrite decide_False by lia.
  rewrite (take_in_range _ _ Hrange).
  split; [done|]. split.
  { rewrite length_take, Hp, permutation_length. lia. }
  split.
  { eapply sublist_NoDup; [|apply sublist_take]. rewrite Hp. apply permutation_NoDup. }
  split; [done|].
  intros Heq. rewrite firstn_all2.
  - rewrite Hp. apply permutation_Permutation.
  - rewrite Hp, permutation_length. lia.
Qed.

Lemma choice_negative (a : list nat) (size : Z) g :
  a ≠ [] → (size < 0)%Z →
  choice a size g = Raise (ValueError "negative dimensions are not allowed").
Proof.
  intros Ha Hsize. unfold choice.
  rewrite decide_False.
  2:{ intros [Hl _]. by apply nil_length_inv in Hl. }
  rewrite decide_False by lia.
  by rewrite decide_True by lia.
Qed.

End shuffle.

(** ** The indices chosen for one label *)

Section gather.
Context {A : Type} `{Inhabited A}.
Implicit Types (a : list A) (idx : list nat).

Lemma gather_NoDup a idx :
  NoDup a → NoDup idx → Forall (λ i, (i < length a)%nat) idx →
  NoDup ((λ i, a !!! i) <$> idx).
Proof.
  intros Ha Hidx Hrange. apply NoDup_fmap_2_strong; [|done].
  intros i j Hi Hj Heq. rewrite Forall_forall in Hrange.
  eapply (NoDup_lookup a); [done| |].
  - apply list_lookup_lookup_total_lt. by apply Hrange.
  - rewrite Heq. apply list_lookup_lookup_total_lt. by apply Hrange.
Qed.

Lemma gather_elem a idx x :
  Forall (λ i, (i < length a)%nat) idx →
  x ∈ (λ i, a !!! i) <$> idx → x ∈ a.
Proof.
  intros Hrange (i & -> & Hi)%list_elem_of_fmap.
  rewrite Forall_forall in Hrange.
  by apply list_elem_of_lookup_total_2, Hrange.
Qed.

Lemma gather_Permutation a idx :
  idx ≡ₚ seq 0 (length a) → (λ i, a !!! i) <$> idx ≡ₚ a.
Proof. intros ->. by rewrite fmap_lookup_total_seq. Qed.

End gather.

Lemma choose_indices_spec (labels : list Z) (size : Z) (lbl : Z) g :
  (0 ≤ size)%Z →
  ∃ chosen g',
    choose_indices labels size lbl g = Ok (chosen, g') ∧
    length chosen =
      (length (filter (λ x, x = lbl) labels) `min` Z.to_nat size)%nat ∧
    NoDup chosen ∧
    Forall (λ i, labels !! i = Some lbl) chosen ∧
    ((length (filter (λ x, x = lbl) labels) ≤ Z.to_nat size)%nat →
     chosen ≡ₚ np.argwhere (np.eq labels lbl)).
Proof.
  intros Hsize. unfold choose_indices.
  set (indices := np.argwhere (np.eq labels lbl)).
  assert (Hlen : length indices = length (filter (λ x, x = lbl) labels))
    by apply argwhere_eq_length.
  assert (Hnd : NoDup indices) by apply argwhere_from_NoDup.
  assert (Hlbl : Forall (λ i, labels !! i = Some lbl) indices).
  { apply Forall_forall. intros i Hi. by apply argwhere_eq_elem. }
  rewrite sum_eq_mask, <- Hlen.
  destruct (decide (Z.of_nat (length indices) < size)%Z) as [Hlt|Hge].
  - exists indices, g. repeat split; try done. lia.
  - destruct (choice_in_range indices size g) as (idx & g' & -> & Hl & Hn & Hr & Hp);
      [lia|].
    exists ((λ i, indices !!! i) <$> idx), g'. split; [done|].
    split; [rewrite length_fmap; lia|].
    split; [by apply gather_NoDup|].
    split.
    + apply Forall_forall. intros i Hi. rewrite Forall_forall in Hlbl.
      eapply Hlbl, gather_elem; eauto.
    + intros Hle. apply gather_Permutation, Hp. lia.
Qed.

Lemma choose_indices_negative (labels : list Z) (size : Z) (lbl : Z) g :
  lbl ∈ labels → (size < 0)%Z →
  choose_indices labels size lbl g
  = Raise (ValueError "negative dimensions are not allowed").
Proof.
  intros Hin Hsize. unfold choose_indices.
  rewrite decide_False by lia.
  apply choice_negative; [|done].
  apply list_elem_of_lookup in Hin as [i Hi].
  apply argwhere_eq_elem in Hi. intros Hnil. rewrite Hnil in Hi.
  by apply elem_of_nil in Hi.
Qed.

(** ** The loop of [subsample_const_size] *)

Lemma chosen_groups_spec (labels : list Z) (size : Z) (lbls : list Z) g :
  (0 ≤ size)%Z →
  ∃ groups g',
    chosen_groups labels size lbls g = Ok (groups, g') ∧
    Forall2 (group_ok labels size) lbls groups.
Proof.
  intros Hsize. revert g. induction lbls as [|lbl lbls IH]; intros g.
  - exists [], g. split; [done|constructor].
  - destruct (choose_indices_spec labels size lbl g Hsize)
      as (chosen & g1 & Hc & Hl & Hn & Hf & Hp).
    destruct (IH g1) as (groups & g2 & Hg & Hok).
    exists ((lbl, chosen) :: groups), g2. split.
    + cbn [chosen_groups]. unfold bind. rewrite Hc, Hg. done.
    + constructor; [|done]. by repeat split.
Qed.

Lemma group_ok_in_range (crops : list CellCrop) size lbl grp :
  group_ok (_label <$> crops) size lbl grp →
  Forall (λ i, (i < length crops)%nat) grp.2.
Proof.
  intros (_ & _ & _ & Hf & _). eapply Forall_impl; [exact Hf|].
  intros i Hi. apply lookup_lt_Some in Hi. by rewrite length_fmap in Hi.
Qed.

Lemma subsample_loop_gathered (crops : list CellCrop) size lbls acc g groups g' :
  chosen_groups (_label <$> crops) size lbls g = Ok (groups, g') →
  Forall (λ grp, Forall (λ i, (i < length crops)%nat) grp.2) groups →
  subsample_loop crops (_label <$> crops) size lbls acc g
  = Ok (acc ++ gathered crops groups, g').
Proof.
  revert acc g groups. induction lbls as [|lbl lbls IH]; intros acc g groups.
  - cbn. intros [= <- <-] _. by rewrite app_nil_r.
  - cbn [chosen_groups subsample_loop]. unfold bind at 1 3.
    destruct (choose_indices (_label <$> crops) size lbl g) as [[chosen g1]|e];
      [|done].
    unfold bind at 1.
    destruct (chosen_groups (_label <$> crops) size lbls g1)
      as [[groups1 g2]|e] eqn:Hrest; [|done].
    cbn. intros [= <- <-]. rewrite Forall_cons. intros [Hr Hrs].
    simpl in Hr. unfold bind, lift_result. rewrite (take_in_range _ _ Hr).
    rewrite (IH _ _ _ Hrest Hrs). unfold gathered. rewrite bind_cons.
    by rewrite <- app_assoc.
Qed.

(** The groups of a successful run, and the crops returned. *)
Lemma subsample_const_size_groups (crops : list CellCrop) (size : Z) g :
  (0 ≤ size)%Z →
  ∃ groups g',
    subsample_indices crops size g = Ok (groups, g') ∧
    subsample_const_size crops size g = Ok (gathered crops groups, g') ∧
    Forall2 (group_ok (_label <$> crops) size)
      (np.unique (_label <$> crops)) groups.
Proof.
  intros Hsize.
  destruct (chosen_groups_spec (_label <$> crops) size
              (np.unique (_label <$> crops)) g Hsize) as (groups & g' & Hg & Hok).
  exists groups, g'. split; [done|]. split; [|done].
  unfold subsample_const_size.
  rewrite (subsample_loop_gathered _ _ _ [] _ _ _ Hg); [done|].
  apply Forall_forall. intros grp Hgrp.
  apply list_elem_of_lookup in Hgrp as [k Hk].
  destruct (Forall2_lookup_r _ _ _ _ _ Hok Hk) as (lbl & _ & Hgok).
  by eapply group_ok_in_range.
Qed.

Lemma unique_NoDup (labels : list Z) : NoDup (np.unique labels).
Proof. apply NoDup_remove_dups. Qed.

Lemma unique_elem (labels : list Z) x : x ∈ np.unique labels ↔ x ∈ labels.
Proof. unfold np.unique. by rewrite elem_of_remove_dups, merge_sort_Permutation. Qed.

(** ** Counting the crops of a label in the result *)

Lemma count_label_app lbl (l1 l2 : list CellCrop) :
  count_label lbl (l1 ++ l2) = (count_label lbl l1 + count_label lbl l2)%nat.
Proof. unfold count_label. by rewrite filter_app, length_app. Qed.

Lemma count_label_same lbl l (items : list CellCrop) :
  Forall (λ c, _label c = l) items →
  count_label lbl items = if decide (l = lbl) then length items else 0%nat.
Proof.
  unfold count_label. induction 1 as [|c items Hc _ IH]; [by case_decide|].
  destruct (decide (l = lbl)) as [<-|Hne].
  - rewrite filter_cons_True by done. simpl. by rewrite IH.
  - rewrite filter_cons_False by congruence. done.
Qed.

Lemma group_items_label (crops : list CellCrop) size l grp :
  group_ok (_label <$> crops) size l grp →
  Forall (λ c, _label c = l) ((λ i, crops !!! i) <$> grp.2).
Proof.
  intros (_ & _ & _ & Hf & _). apply Forall_fmap.
  eapply Forall_impl; [exact Hf|]. intros i Hi. unfold compose. cbv beta in Hi |- *.
  rewrite list_lookup_fmap in Hi.
  destruct (crops !! i) as [c|] eqn:Hc; [|done].
  rewrite (list_lookup_total_correct _ _ _ Hc). by injection Hi.
Qed.

Lemma count_label_gathered (crops : list CellCrop) size lbls groups lbl :
  NoDup lbls →
  Forall2 (group_ok (_label <$> crops) size) lbls groups →
  count_label lbl (gathered crops groups)
  = if decide (lbl ∈ lbls)
    then (count_label lbl crops `min` Z.to_nat size)%nat else 0%nat.
Proof.
  intros Hnd Hok. induction Hok as [|l grp lbls groups Hg Hok IH].
  - cbn. rewrite decide_False; [done|]. apply not_elem_of_nil.
  - apply NoDup_cons in Hnd as [Hl Hnd]. unfold gathered in *.
    rewrite bind_cons, count_label_app, (IH Hnd).
    rewrite (count_label_same lbl l) by (by eapply group_items_label).
    rewrite length_fmap. destruct Hg as (_ & Hlen & _).
    rewrite Hlen, count_label_labels.
    destruct (decide (l = lbl)) as [->|Hne].
    + rewrite (decide_True (P := lbl ∈ lbl :: lbls)) by (by left).
      rewrite decide_False by done. lia.
    + destruct (decide (lbl ∈ lbls)) as [Hin|Hnin].
      * rewrite decide_True by (by right). done.
      * rewrite decide_False; [done|]. rewrite not_elem_of_cons. split; congruence.
Qed.

(** ** The groups partition the population *)

Lemma gather_argwhere_from (pre crops : list CellCrop) lbl :
  (λ i, (pre ++ crops) !!! i)
    <$> np.argwhere_from (length pre) (np.eq (_label <$> crops) lbl)
  = filter (λ c, _label c = lbl) crops.
Proof.
  revert pre. induction crops as [|c crops IH]; intros pre; [done|].
  assert (Hstep : (λ i, (pre ++ c :: crops) !!! i)
      <$> np.argwhere_from (S (length pre)) (np.eq (_label <$> crops) lbl)
      = filter (λ c, _label c = lbl) crops).
  { rewrite <- (IH (pre ++ [c])). rewrite length_app, Nat.add_1_r.
    by rewrite <- app_assoc. }
  cbn [fmap list_fmap np.eq np.argwhere_from].
  fold (np.eq (_label <$> crops) lbl).
  case_bool_decide as Hc.
  - rewrite filter_cons_True by done. rewrite fmap_cons, Hstep. f_equal.
    apply list_lookup_total_middle. done.
  - rewrite filter_cons_False by done. apply Hstep.
Qed.

Lemma gather_argwhere (crops : list CellCrop) lbl :
  (λ i, crops !!! i) <$> np.argwhere (np.eq (_label <$> crops) lbl)
  = filter (λ c, _label c = lbl) crops.
Proof. apply (gather_argwhere_from [] crops lbl). Qed.

Section partition.
Context {A : Type} (key : A → Z).
Implicit Types (c : A) (l : list A) (lbls : list Z).

Lemma bind_filter_fresh c l lbls :
  key c ∉ lbls →
  lbls ≫= (λ t, filter (λ c, key c = t) (c :: l))
  = lbls ≫= (λ t, filter (λ c, key c = t) l).
Proof.
  induction lbls as [|t lbls IH]; [done|].
  rewrite not_elem_of_cons. intros [Hne Hnin].
  rewrite !bind_cons, (IH Hnin). by rewrite filter_cons_False by congruence.
Qed.

Lemma bind_filter_cons c l lbls :
  NoDup lbls → key c ∈ lbls →
  lbls ≫= (λ t, filter (λ c, key c = t) (c :: l))
  ≡ₚ c :: lbls ≫= (λ t, filter (λ c, key c = t) l).
Proof.
  induction lbls as [|t lbls IH]; [by intros _ ?%elem_of_nil|].
  rewrite NoDup_cons. intros [Ht Hnd] Hin. rewrite !bind_cons.
  destruct (decide (key c = t)) as [Hc|Hc].
  - rewrite filter_cons_True by done.
    rewrite bind_filter_fresh by (by rewrite Hc). done.
  - rewrite filter_cons_False by done.
    apply elem_of_cons in Hin as [?|Hin]; [done|].
    rewrite (IH Hnd Hin). by rewrite Permutation_middle.
Qed.

(** Grouping a list by the distinct keys of its elements permutes it. *)
Lemma bind_filter_Permutation l lbls :
  NoDup lbls → (∀ c, c ∈ l → key c ∈ lbls) →
  lbls ≫= (λ t, filter (λ c, key c = t) l) ≡ₚ l.
Proof.
  intros Hnd. induction l as [|c l IH]; intros Hin.
  - clear. induction lbls as [|t lbls IH]; [done|]. by rewrite bind_cons, IH.
  - rewrite bind_filter_cons by (try done; apply Hin; by left).
    f_equiv. apply IH. intros c' Hc'. apply Hin. by right.
Qed.

End partition.

Lemma gathered_all (crops : list CellCrop) size lbls groups :
  (∀ lbl, (count_label lbl crops ≤ Z.to_nat size)%nat) →
  Forall2 (group_ok (_label <$> crops) size) lbls groups →
  gathered crops groups
  ≡ₚ lbls ≫= (λ l, filter (λ c, _label c = l) crops).
Proof.
  intros Hall. unfold gathered. induction 1 as [|l grp lbls groups Hg _ IH]; [done|].
  rewrite !bind_cons, IH. f_equiv.
  destruct Hg as (_ & _ & _ & _ & Hp).
  rewrite Hp, gather_argwhere; [done|].
  rewrite count_label_labels. apply Hall.
Qed.

(** ** Claims on [subsample_const_size] *)

Lemma subsample_empty (size : Z) g :
  subsample_indices [] size g = Ok ([], g) ∧
  subsample_const_size [] size g = Ok ([], g).
Proof. done. Qed.

Lemma group_lookup (crops : list CellCrop) size lbls groups lbl idx :
  Forall2 (group_ok (_label <$> crops) size) lbls groups →
  (lbl, idx) ∈ groups →
  lbl ∈ lbls ∧ group_ok (_label <$> crops) size lbl (lbl, idx).
Proof.
  intros Hok [k Hk]%list_elem_of_lookup.
  destruct (Forall2_lookup_r _ _ _ _ _ Hok Hk) as (l & Hl & Hg).
  assert (l = lbl) as -> by (destruct Hg as [Hg _]; by symmetry).
  split; [by eapply list_elem_of_lookup_2|done].
Qed.

(** C1, as amended: for a size that is not negative (or an empty population)
    [subsample_const_size] returns a population that holds, of every label
    present in the input with count [C], exactly [min C size] crops, and no
    crop of a label that is absent from the input; when [size] is at least
    the count of every label, the result is a permutation of the input. *)
Theorem subsample_const_size_bound (crops : list CellCrop) (size : Z) g :
  (0 ≤ size)%Z ∨ crops = [] →
  ∃ out g',
    subsample_const_size crops size g = Ok (out, g') ∧
    (∀ lbl, lbl ∈ (_label <$> crops) →
       Z.of_nat (count_label lbl out)
       = Z.min (Z.of_nat (count_label lbl crops)) size) ∧
    (∀ lbl, lbl ∉ (_label <$> crops) → count_label lbl out = 0%nat) ∧
    ((∀ lbl, (Z.of_nat (count_label lbl crops) ≤ size)%Z) → out ≡ₚ crops).
Proof.
  intros [Hsize| ->].
  2:{ exists [], g. split; [done|]. split; [by intros lbl ?%elem_of_nil|]. done. }
  destruct (subsample_const_size_groups crops size g Hsize)
    as (groups & g' & _ & Hrun & Hok).
  exists (gathered crops groups), g'. split; [done|].
  pose proof (unique_NoDup (_label <$> crops)) as Hnd.
  split; [|split].
  - intros lbl Hin. rewrite (count_label_gathered _ _ _ _ lbl Hnd Hok).
    rewrite decide_True by (by apply unique_elem). lia.
  - intros lbl Hnin. rewrite (count_label_gathered _ _ _ _ lbl Hnd Hok).
    by rewrite decide_False by (by rewrite unique_elem).
  - intros Hall. rewrite (gathered_all crops size _ _ (λ lbl, ltac:(specialize (Hall lbl); lia)) Hok).
    apply (bind_filter_Permutation _label); [done|].
    intros c Hc. apply unique_elem, list_elem_of_fmap. eauto.
Qed.

Lemma subsample_const_size_bound_witness :
  ∃ out g',
    subsample_const_size population_80_20 30 rng0 = Ok (out, g') ∧
    (∀ lbl, lbl ∈ (_label <$> population_80_20) →
       Z.of_nat (count_label lbl out)
       = Z.min (Z.of_nat (count_label lbl population_80_20)) 30) ∧
    (∀ lbl, lbl ∉ (_label <$> population_80_20) → count_label lbl out = 0%nat) ∧
    ((∀ lbl, (Z.of_nat (count_label lbl population_80_20) ≤ 30)%Z) →
     out ≡ₚ population_80_20).
Proof. apply (subsample_const_size_bound population_80_20 30 rng0). left. lia. Defined.

(** C1 as stated fails for a negative size: on one crop of label 0 and size
    -1 the draw raises, so no population with [min 1 (-1)] crops of label 0 is
    returned. *)
Lemma subsample_const_size_bound_counterexample :
  subsample_const_size [mkCrop 0 0] (-1) rng0
  = Raise (ValueError "negative dimensions are not allowed") ∧
  ¬ ∃ out g',
      subsample_const_size [mkCrop 0 0] (-1) rng0 = Ok (out, g') ∧
      Z.of_nat (count_label 0 out)
      = Z.min (Z.of_nat (count_label 0 [mkCrop 0 0])) (-1).
Proof.
  split; [by vm_compute|].
  intros (out & g' & Hrun & _). vm_compute in Hrun. discriminate.
Qed.

(** C3: whenever the run returns (the size is not negative, or the
    population is empty), the indices retained for a label whose count is at
    least [size] are [size] pairwise distinct positions of the input, each
    holding a crop of that label; the crops returned are the crops at these
    positions. *)
Theorem subsample_const_size_no_duplication (crops : list CellCrop) (size : Z) g :
  (0 ≤ size)%Z ∨ crops = [] →
  ∃ groups g',
    subsample_indices crops size g = Ok (groups, g') ∧
    subsample_const_size crops size g = Ok (gathered crops groups, g') ∧
    groups.*1 = np.unique (_label <$> crops) ∧
    ∀ lbl idx, (lbl, idx) ∈ groups →
      (size ≤ Z.of_nat (count_label lbl crops))%Z →
      length idx = Z.to_nat size ∧
      NoDup idx ∧
      Forall (λ i, ∃ c, crops !! i = Some c ∧ _label c = lbl) idx.
Proof.
  intros [Hsize| ->].
  2:{ exists [], g. split; [done|]. split; [done|]. split; [done|].
      by intros lbl idx ?%elem_of_nil. }
  destruct (subsample_const_size_groups crops size g Hsize)
    as (groups & g' & Hidx & Hrun & Hok).
  exists groups, g'. split; [done|]. split; [done|]. split.
  - clear -Hok. induction Hok as [|l grp lbls groups (Hl & _) _ IH]; [done|].
    rewrite fmap_cons. by f_equal.
  - intros lbl idx Hin Hle.
    destruct (group_lookup _ _ _ _ _ _ Hok Hin) as (_ & _ & Hlen & Hnd & Hf & _).
    cbn [fst snd] in Hlen, Hnd, Hf. rewrite count_label_labels in Hlen.
    split; [lia|]. split; [done|].
    eapply Forall_impl; [exact Hf|]. intros i Hi. cbv beta in Hi.
    rewrite list_lookup_fmap in Hi.
    destruct (crops !! i) as [c|]; [|done]. exists c. split; [done|].
    by injection Hi.
Qed.

Lemma subsample_const_size_no_duplication_witness :
  ∃ groups g',
    subsample_indices population_80_20 30 rng0 = Ok (groups, g') ∧
    subsample_const_size population_80_20 30 rng0
    = Ok (gathered population_80_20 groups, g') ∧
    groups.*1 = np.unique (_label <$> population_80_20) ∧
    ∀ lbl idx, (lbl, idx) ∈ groups →
      (30 ≤ Z.of_nat (count_label lbl population_80_20))%Z →
      length idx = Z.to_nat 30 ∧
      NoDup idx ∧
      Forall (λ i, ∃ c, population_80_20 !! i = Some c ∧ _label c = lbl) idx.
Proof.
  apply (subsample_const_size_no_duplication population_80_20 30 rng0). left. lia.
Defined.

Lemma gathered_nil (crops : list CellCrop) lbls groups :
  Forall2 (group_ok (_label <$> crops) 0) lbls groups →
  gathered crops groups = [].
Proof.
  unfold gathered. induction 1 as [|l grp lbls groups (_ & Hlen & _) _ IH]; [done|].
  rewrite bind_cons, IH. rewrite Nat.min_0_r in Hlen.
  apply nil_length_inv in Hlen. by rewrite Hlen.
Qed.

(** C4, as amended: on a non-empty population, size 0 returns the empty
    population without an error, and a negative size raises the error of the
    draw without replacement. *)
Theorem subsample_const_size_degenerate (crops : list CellCrop) (size : Z) g :
  crops ≠ [] → (size ≤ 0)%Z →
  (size = 0%Z → ∃ g', subsample_const_size crops size g = Ok ([], g')) ∧
  ((size < 0)%Z →
   subsample_const_size crops size g
   = Raise (ValueError "negative dimensions are not allowed")).
Proof.
  intros Hne Hsize. split.
  - intros ->.
    destruct (subsample_const_size_groups crops 0 g) as (groups & g' & _ & Hrun & Hok);
      [done|].
    exists g'. by rewrite Hrun, (gathered_nil _ _ _ Hok).
  - intros Hneg. unfold subsample_const_size.
    destruct (np.unique (_label <$> crops)) as [|lbl lbls] eqn:Hu.
    + destruct crops as [|c crops]; [done|].
      assert (Hin : _label c ∈ np.unique (_label <$> c :: crops)).
      { apply unique_elem. rewrite fmap_cons. by left. }
      rewrite Hu in Hin. by apply elem_of_nil in Hin.
    + cbn [subsample_loop]. unfold bind at 1.
      rewrite choose_indices_negative; [done| |done].
      apply unique_elem. rewrite Hu. by left.
Qed.

Lemma subsample_const_size_degenerate_witness :
  (0%Z = 0%Z → ∃ g', subsample_const_size population_3_2 0 rng0 = Ok ([], g')) ∧
  ((0 < 0)%Z →
   subsample_const_size population_3_2 0 rng0
   = Raise (ValueError "negative dimensions are not allowed")).
Proof.
  apply (subsample_const_size_degenerate population_3_2 0 rng0); [done|lia].
Defined.

(** C4 as stated fails for a negative size: on three crops of label 0 and two
    of label 1, size -3 raises instead of returning an empty population. *)
Lemma subsample_const_size_degenerate_counterexample :
  population_3_2 ≠ [] ∧ (-3 ≤ 0)%Z ∧
  subsample_const_size population_3_2 (-3) rng0
  = Raise (ValueError "negative dimensions are not allowed") ∧
  ¬ ∃ g', subsample_const_size population_3_2 (-3) rng0 = Ok ([], g').
Proof.
  split; [done|]. split; [lia|]. split; [by vm_compute|].
  intros (g' & Hrun). vm_compute in Hrun. discriminate.
Qed.

(** ** The weight vector of [define_sampler] *)

Section weights.
Context {R : Type} `{TrueDiv R}.
Implicit Types (cats labels : list Z) (crops : list CellCrop).

Lemma count_cat_pos cats c : c ∈ cats → (0 < count_cat c cats)%nat.
Proof.
  intros Hc. unfold count_cat.
  assert (Hin : c ∈ filter (λ x, x = c) cats) by (by apply list_elem_of_filter).
  destruct (filter (λ x, x = c) cats); [by apply elem_of_nil in Hin|simpl; lia].
Qed.

Lemma class_sample_count_spec cats :
  class_sample_count cats = (λ t, (t, count_cat t cats)) <$> np.unique cats.
Proof.
  unfold class_sample_count. apply list_fmap_ext. intros _ t _.
  by rewrite argwhere_eq_length.
Qed.

Lemma length_bind_filter cats (lbls : list Z) :
  length (lbls ≫= (λ t, filter (λ x, x = t) cats))
  = sum_list ((λ t, count_cat t cats) <$> lbls).
Proof.
  induction lbls as [|t lbls IH]; [done|].
  by rewrite bind_cons, length_app, fmap_cons, IH.
Qed.

(** [sum(class_sample_count.values())] is the number of items. *)
Lemma sum_values_class_sample_count cats :
  sum_values (class_sample_count cats) = length cats.
Proof.
  unfold sum_values. rewrite class_sample_count_spec, <- list_fmap_compose.
  change (snd ∘ (λ t, (t, count_cat t cats))) with (λ t, count_cat t cats).
  rewrite <- length_bind_filter.
  apply Permutation_length, (bind_filter_Permutation (λ x, x)).
  - apply unique_NoDup.
  - intros c Hc. by apply unique_elem.
Qed.

Lemma weight_items_spec total cats (lbls : list Z) :
  (∀ t, t ∈ lbls → t ∈ cats) →
  weight_items (R := R) total ((λ t, (t, count_cat t cats)) <$> lbls)
  = Ok ((λ t, (t, true_div (Z.of_nat total) (Z.of_nat (count_cat t cats)))) <$> lbls).
Proof.
  induction lbls as [|t lbls IH]; intros Hin; [done|].
  rewrite !fmap_cons. cbn [weight_items]. unfold py_div.
  pose proof (count_cat_pos cats t (Hin t ltac:(by left))).
  rewrite decide_False by lia. cbn [rbind].
  rewrite IH; [done|]. intros t' Ht'. apply Hin. by right.
Qed.

Lemma getitem_fmap {V} (f : Z → V) (lbls : list Z) t :
  t ∈ lbls → getitem ((λ t, (t, f t)) <$> lbls) t = Ok (f t).
Proof.
  induction lbls as [|t' lbls IH]; [by intros ?%elem_of_nil|].
  intros Hin. rewrite fmap_cons. cbn [getitem].
  destruct (decide (t = t')) as [->|Hne]; [done|].
  apply IH. apply elem_of_cons in Hin as [?|?]; done.
Qed.

Lemma lookup_all_fmap {V} (f : Z → V) (lbls labels : list Z) :
  (∀ t, t ∈ labels → t ∈ lbls) →
  lookup_all ((λ t, (t, f t)) <$> lbls) labels = Ok (f <$> labels).
Proof.
  induction labels as [|t labels IH]; intros Hin; [done|].
  cbn [lookup_all]. rewrite getitem_fmap by (apply Hin; by left).
  cbn [rbind]. rewrite IH; [done|]. intros t' Ht'. apply Hin. by right.
Qed.

Lemma map_labels_length hm labels cats :
  map_labels hm labels = Ok cats → length cats = length labels.
Proof.
  revert cats. induction labels as [|l labels IH]; intros cats.
  - by intros [= <-].
  - cbn [map_labels]. destruct (hm !! str l); [|done].
    destruct (map_labels hm labels) as [cs|]; [|done].
    cbn. intros [= <-]. simpl. by rewrite (IH cs).
Qed.

Lemma categories_length crops hm cats :
  categories crops hm = Ok cats → length cats = length crops.
Proof.
  unfold categories. destruct hm as [hm|].
  - intros Hm%map_labels_length. by rewrite length_fmap in Hm.
  - intros [= <-]. by rewrite length_fmap.
Qed.

(** Lines 80-85: every item gets the number of items divided by the number
    of items of its category. *)
Lemma samples_weight_spec crops hm cats :
  categories crops hm = Ok cats →
  samples_weight (R := R) crops hm = Ok (inverse_frequency cats <$> cats).
Proof.
  intros Hcats. unfold samples_weight. rewrite Hcats. cbn [rbind].
  rewrite sum_values_class_sample_count, class_sample_count_spec.
  rewrite weight_items_spec by (intros t; apply unique_elem).
  cbn [rbind].
  apply (lookup_all_fmap (λ t, true_div (Z.of_nat (length cats))
                                 (Z.of_nat (count_cat t cats)))).
  intros t. apply unique_elem.
Qed.

Lemma samples_weight_raise crops hm e :
  categories crops hm = Raise e →
  samples_weight (R := R) crops hm = Raise e.
Proof. intros Hcats. unfold samples_weight. by rewrite Hcats. Qed.

Lemma define_sampler_spec crops hm cats :
  categories crops hm = Ok cats → crops ≠ [] →
  define_sampler (R := R) crops hm
  = Ok (mkSampler (inverse_frequency cats <$> cats) (length crops) true).
Proof.
  intros Hcats Hne. unfold define_sampler.
  rewrite (samples_weight_spec _ _ _ Hcats). cbn [rbind].
  unfold new_WeightedRandomSampler.
  rewrite length_fmap, (categories_length _ _ _ Hcats).
  rewrite decide_False; [done|]. by destruct crops.
Qed.

Lemma define_sampler_empty hm :
  define_sampler (R := R) [] hm
  = Raise (ValueError "num_samples should be a positive integer value").
Proof. by destruct hm. Qed.

End weights.

(** ** The category map *)

Lemma map_labels_ok (hm : gmap string Z) (labels : list Z) :
  (∀ l, l ∈ labels → is_Some (hm !! str l)) →
  ∃ cats, map_labels hm labels = Ok cats ∧
          Forall2 (λ l c, hm !! str l = Some c) labels cats.
Proof.
  induction labels as [|l labels IH]; intros Hall.
  - exists []. split; [done|constructor].
  - destruct (Hall l ltac:(by left)) as [c Hc].
    destruct IH as (cats & Hcats & Hf).
    { intros l' Hl'. apply Hall. by right. }
    exists (c :: cats). split.
    + cbn [map_labels]. by rewrite Hc, Hcats.
    + by constructor.
Qed.

Lemma map_labels_raise (hm : gmap string Z) (labels : list Z) e :
  map_labels hm labels = Raise e →
  ∃ l, l ∈ labels ∧ hm !! str l = None ∧ e = KeyError (str l).
Proof.
  induction labels as [|l labels IH]; [done|].
  cbn [map_labels]. destruct (hm !! str l) as [c|] eqn:Hc.
  - destruct (map_labels hm labels) as [cs|e']; [done|].
    cbn. intros [= <-]. destruct IH as (l' & Hl' & Hn & He); [done|].
    exists l'. split; [by right|done].
  - intros [= <-]. exists l. split; [by left|done].
Qed.

Lemma map_labels_missing (hm : gmap string Z) (labels : list Z) l :
  l ∈ labels → hm !! str l = None →
  ∃ k, map_labels hm labels = Raise (KeyError k).
Proof.
  intros Hin Hnone. destruct (map_labels hm labels) as [cats|e] eqn:Hm.
  - exfalso. revert cats Hm. induction labels as [|l' labels IH]; intros cats.
    + by apply elem_of_nil in Hin.
    + cbn [map_labels]. destruct (hm !! str l') as [c|] eqn:Hc; [|done].
      destruct (map_labels hm labels) as [cs|] eqn:Hcs; [|done].
      apply elem_of_cons in Hin as [->|Hin]; [congruence|].
      intros _. by eapply IH.
  - apply map_labels_raise in Hm as (l' & _ & _ & ->). by eexists.
Qed.

(** ** Sums of weights in exact arithmetic *)

Lemma Qsum_app (l1 l2 : list Q) : (Qsum (l1 ++ l2) == Qsum l1 + Qsum l2)%Q.
Proof.
  induction l1 as [|x l1 IH]; simpl.
  - ring.
  - rewrite IH. ring.
Qed.

Lemma Qsum_Permutation (l1 l2 : list Q) : l1 ≡ₚ l2 → (Qsum l1 == Qsum l2)%Q.
Proof.
  induction 1 as [ | x l1 l2 _ IH | x y l | l1 l2 l3 _ IH1 _ IH2 ]; simpl.
  - reflexivity.
  - by rewrite IH.
  - ring.
  - by rewrite IH1.
Qed.

Lemma inject_Z_succ (n : nat) :
  (inject_Z (Z.of_nat (S n)) == 1 + inject_Z (Z.of_nat n))%Q.
Proof. rewrite Nat2Z.inj_succ, <- Z.add_1_l, inject_Z_plus. reflexivity. Qed.

Lemma Qsum_filter_same (F : Z → Q) (cats : list Z) t :
  (Qsum (F <$> filter (λ x, x = t) cats)
   == inject_Z (Z.of_nat (count_cat t cats)) * F t)%Q.
Proof.
  unfold count_cat. induction cats as [|x cats IH].
  - simpl. ring.
  - destruct (decide (x = t)) as [->|Hne].
    + rewrite filter_cons_True by done. rewrite fmap_cons.
      cbn [Qsum foldr length]. fold (Qsum (F <$> filter (λ x, x = t) cats)).
      rewrite IH, inject_Z_succ. ring.
    + rewrite filter_cons_False by done. apply IH.
Qed.

Lemma Qsum_groups (F : Z → Q) (cats lbls : list Z) :
  (Qsum (F <$> (lbls ≫= (λ t, filter (λ x, x = t) cats)))
   == Qsum ((λ t, inject_Z (Z.of_nat (count_cat t cats)) * F t) <$> lbls))%Q.
Proof.
  induction lbls as [|t lbls IH]; [reflexivity|].
  rewrite bind_cons, fmap_app, Qsum_app, fmap_cons, IH, Qsum_filter_same.
  reflexivity.
Qed.

Lemma inverse_frequency_product (cats : list Z) c :
  c ∈ cats →
  (inject_Z (Z.of_nat (count_cat c cats)) * inverse_frequency (R := Q) cats c
   == inject_Z (Z.of_nat (length cats)))%Q.
Proof.
  intros Hc%count_cat_pos. unfold inverse_frequency, true_div, Q_true_div.
  field. intros Hz.
  unfold Qeq in Hz. cbn [Qnum Qden inject_Z] in Hz. lia.
Qed.

Lemma Qsum_inverse_frequency (cats lbls : list Z) :
  (∀ t, t ∈ lbls → t ∈ cats) →
  (Qsum ((λ t, inject_Z (Z.of_nat (count_cat t cats))
               * inverse_frequency (R := Q) cats t) <$> lbls)
   == inject_Z (Z.of_nat (length cats)) * inject_Z (Z.of_nat (length lbls)))%Q.
Proof.
  induction lbls as [|t lbls IH]; intros Hin.
  - simpl. ring.
  - rewrite fmap_cons. cbn [Qsum foldr length].
    fold (Qsum ((λ t, (inject_Z (Z.of_nat (count_cat t cats))
                       * inverse_frequency (R := Q) cats t)%Q) <$> lbls)).
    rewrite IH by (intros t' Ht'; apply Hin; by right).
    rewrite inverse_frequency_product by (apply Hin; by left).
    rewrite inject_Z_succ. ring.
Qed.

(** The weights of all items add up to the number of items times the number
    of distinct categories. *)
Lemma Qsum_weights (cats : list Z) :
  (Qsum (inverse_frequency (R := Q) cats <$> cats)
   == inject_Z (Z.of_nat (length cats))
      * inject_Z (Z.of_nat (length (np.unique cats))))%Q.
Proof.
  rewrite <- Qsum_inverse_frequency by (intros t; apply unique_elem).
  rewrite <- Qsum_groups. apply Qsum_Permutation, fmap_Permutation.
  symmetry. apply (bind_filter_Permutation (λ x, x)).
  - apply unique_NoDup.
  - intros c Hc. by apply unique_elem.
Qed.

(** The scenario of the spec: 80 crops of label 0 and 20 of label 1 with
    [size_data = 30] give 30 crops of label 0 and the 20 of label 1. *)
Example subsample_scenario :
  ∃ out g',
    subsample_const_size population_80_20 30 rng0 = Ok (out, g') ∧
    length out = 50%nat ∧
    count_label 0 out = 30%nat ∧
    count_label 1 out = 20%nat ∧
    NoDup out.
Proof.
  eexists _, _. split; [vm_compute; reflexivity|].
  split; [reflexivity|]. split; [reflexivity|]. split; [reflexivity|].
  by apply (bool_decide_unpack _).
Qed.

(** ** Claims on [define_sampler] *)

(** C2, as amended: for every non-empty population whose labels all have a
    category, in exact arithmetic the sampler gives each item of category [c]
    a weight [w] with [count c * w == number of items], hence the same
    product for any two categories; in the binary64 arithmetic of the program
    the weight of each item of category [c] is the rounded quotient of the
    number of items by [count c], the same for all items of [c]. *)
Theorem define_sampler_equal_expectation (crops : list CellCrop)
  (hm : option (gmap string Z)) (cats : list Z) :
  categories crops hm = Ok cats → crops ≠ [] →
  (∃ s : WeightedRandomSampler Q,
     define_sampler crops hm = Ok s ∧
     length (weights s) = length crops ∧
     ∀ i c, cats !! i = Some c →
       ∃ w, weights s !! i = Some w ∧
            (inject_Z (Z.of_nat (count_cat c cats)) * w
             == inject_Z (Z.of_nat (length crops)))%Q) ∧
  (∃ s : WeightedRandomSampler float,
     define_sampler crops hm = Ok s ∧
     ∀ i c, cats !! i = Some c →
       weights s !! i
       = Some (PrimFloat.div (Z2float (Z.of_nat (length crops)))
                 (Z2float (Z.of_nat (count_cat c cats))))).
Proof.
  intros Hcats Hne. pose proof (categories_length _ _ _ Hcats) as Hlen. split.
  - eexists. split; [by apply define_sampler_spec|]. cbn [weights].
    split; [by rewrite length_fmap|].
    intros i c Hi. exists (inverse_frequency cats c). split.
    + by rewrite list_lookup_fmap, Hi.
    + rewrite <- Hlen. apply inverse_frequency_product.
      by eapply list_elem_of_lookup_2.
  - eexists. split; [by apply define_sampler_spec|]. cbn [weights].
    intros i c Hi. rewrite list_lookup_fmap, Hi. cbn.
    unfold inverse_frequency, true_div, float_true_div. by rewrite Hlen.
Qed.

Lemma define_sampler_equal_expectation_witness :
  (∃ s : WeightedRandomSampler Q,
     define_sampler population_80_20 None = Ok s ∧
     length (weights s) = length population_80_20 ∧
     ∀ i c, (_label <$> population_80_20) !! i = Some c →
       ∃ w, weights s !! i = Some w ∧
            (inject_Z (Z.of_nat (count_cat c (_label <$> population_80_20))) * w
             == inject_Z (Z.of_nat (length population_80_20)))%Q) ∧
  (∃ s : WeightedRandomSampler float,
     define_sampler population_80_20 None = Ok s ∧
     ∀ i c, (_label <$> population_80_20) !! i = Some c →
       weights s !! i
       = Some (PrimFloat.div (Z2float (Z.of_nat (length population_80_20)))
                 (Z2float (Z.of_nat (count_cat c (_label <$> population_80_20)))))).
Proof.
  apply (define_sampler_equal_expectation population_80_20 None
           (_label <$> population_80_20)); [reflexivity|discriminate].
Defined.

(** C2 as stated fails in the arithmetic of the program: with eleven crops of
    label 0 and four of label 1, the weight of label 0 times its count is not
    the number of items (15), while the product for label 1 is. *)
Lemma define_sampler_equal_expectation_counterexample :
  count_label 0 population_11_4 = 11%nat ∧
  count_label 1 population_11_4 = 4%nat ∧
  length population_11_4 = 15%nat ∧
  ∃ s w0 w1,
    define_sampler (R := float) population_11_4 None = Ok s ∧
    weights s !! 0%nat = Some w0 ∧
    weights s !! 11%nat = Some w1 ∧
    PrimFloat.eqb (PrimFloat.mul (Z2float 11) w0) (Z2float 15) = false ∧
    PrimFloat.eqb (PrimFloat.mul (Z2float 4) w1) (Z2float 15) = true ∧
    PrimFloat.eqb (PrimFloat.mul (Z2float 11) w0)
      (PrimFloat.mul (Z2float 4) w1) = false.
Proof.
  split; [by vm_compute|]. split; [by vm_compute|]. split; [by vm_compute|].
  eexists _, _, _. split; [vm_compute; reflexivity|].
  split; [reflexivity|]. split; [reflexivity|].
  split; [by vm_compute|]. split; by vm_compute.
Qed.

(** C5: without a category map every item of a non-empty population gets the
    weight (number of items) / (number of items of its label); for 80 crops
    of label 0 and 20 of label 1 the weights are 1.25 and 5.0. *)
Theorem define_sampler_identity_map {R : Type} `{TrueDiv R}
  (crops : list CellCrop) :
  crops ≠ [] →
  define_sampler (R := R) crops None
  = Ok (mkSampler
          ((λ c, true_div (Z.of_nat (length crops))
                   (Z.of_nat (count_label (_label c) crops))) <$> crops)
          (length crops) true) ∧
  define_sampler (R := float) population_80_20 None
  = Ok (mkSampler (replicate 80 1.25%float ++ replicate 20 5%float) 100 true).
Proof.
  intros Hne. split; [|by vm_compute].
  rewrite (define_sampler_spec crops None (_label <$> crops)) by done.
  do 2 f_equal. rewrite <- list_fmap_compose. apply list_fmap_ext.
  intros _ c _. unfold compose, inverse_frequency.
  by rewrite length_fmap, <- count_label_labels.
Qed.

Lemma define_sampler_identity_map_witness :
  define_sampler (R := float) population_3_2 None
  = Ok (mkSampler
          ((λ c, true_div (Z.of_nat (length population_3_2))
                   (Z.of_nat (count_label (_label c) population_3_2)))
             <$> population_3_2)
          (length population_3_2) true) ∧
  define_sampler (R := float) population_80_20 None
  = Ok (mkSampler (replicate 80 1.25%float ++ replicate 20 5%float) 100 true).
Proof. apply (define_sampler_identity_map population_3_2). discriminate. Defined.

(** C6: with a category map, [define_sampler] raises the key error exactly
    when the string of some item's label has no entry in the map; when every
    item's label has an entry, the weight vector is computed from the mapped
    categories, and the sampler is returned for a non-empty population. *)
Theorem define_sampler_missing_category {R : Type} `{TrueDiv R}
  (crops : list CellCrop) (hm : gmap string Z) :
  ((∃ k, define_sampler (R := R) crops (Some hm) = Raise (KeyError k))
   ↔ (∃ c, c ∈ crops ∧ hm !! str (_label c) = None)) ∧
  ((∀ c, c ∈ crops → is_Some (hm !! str (_label c))) →
   ∃ cats,
     Forall2 (λ c cat, hm !! str (_label c) = Some cat) crops cats ∧
     samples_weight (R := R) crops (Some hm)
     = Ok (inverse_frequency cats <$> cats) ∧
     (crops ≠ [] →
      define_sampler (R := R) crops (Some hm)
      = Ok (mkSampler (inverse_frequency cats <$> cats) (length crops) true))).
Proof.
  split; [split|].
  - intros [k Hk].
    destruct (categories crops (Some hm)) as [cats|e] eqn:Hcats.
    + destruct crops as [|c crops].
      * by rewrite define_sampler_empty in Hk.
      * by rewrite (define_sampler_spec _ _ _ Hcats) in Hk.
    + apply map_labels_raise in Hcats as (l & Hl & Hnone & _).
      apply list_elem_of_fmap in Hl as (c & -> & Hc). eauto.
  - intros (c & Hc & Hnone).
    destruct (map_labels_missing hm (_label <$> crops) (_label c)) as [k Hk];
      [by apply list_elem_of_fmap_2|done|].
    exists k. unfold define_sampler.
    by rewrite (samples_weight_raise crops (Some hm) _ Hk).
  - intros Hall.
    destruct (map_labels_ok hm (_label <$> crops)) as (cats & Hcats & Hf).
    { intros l (c & -> & Hc)%list_elem_of_fmap. by apply Hall. }
    exists cats. split; [by apply Forall2_fmap_l in Hf|].
    split; [by apply samples_weight_spec|].
    intros Hne. by apply define_sampler_spec.
Qed.

(** C10: in exact arithmetic, for every non-empty population whose labels all
    have a category, the weights of all items add up to the number of items
    times the number of distinct categories. *)
Theorem define_sampler_weight_sum (crops : list CellCrop)
  (hm : option (gmap string Z)) (cats : list Z) :
  categories crops hm = Ok cats → crops ≠ [] →
  ∃ s : WeightedRandomSampler Q,
    define_sampler crops hm = Ok s ∧
    (Qsum (weights s)
     == inject_Z (Z.of_nat (length crops))
        * inject_Z (Z.of_nat (length (np.unique cats))))%Q.
Proof.
  intros Hcats Hne. eexists. split; [by apply define_sampler_spec|].
  cbn [weights]. rewrite <- (categories_length _ _ _ Hcats).
  apply Qsum_weights.
Qed.

Lemma define_sampler_weight_sum_witness :
  ∃ s : WeightedRandomSampler Q,
    define_sampler population_11_4 None = Ok s ∧
    (Qsum (weights s)
     == inject_Z (Z.of_nat (length population_11_4))
        * inject_Z (Z.of_nat (length (np.unique (_label <$> population_11_4)))))%Q.
Proof.
  apply (define_sampler_weight_sum population_11_4 None
           (_label <$> population_11_4)); [reflexivity|discriminate].
Defined.

(** ** Tables *)

Lemma concat_columns_aligned (a b : DataFrame) :
  index b = index a →
  pd.concat_columns [a; b] = Ok (mkDataFrame (index a) (columns a ++ columns b)).
Proof.
  intros Hidx. unfold pd.concat_columns.
  rewrite decide_True by (by repeat constructor).
  cbn. by rewrite app_nil_r.
Qed.

Lemma setitem_fresh (df : DataFrame) (name : string) (v : cell) :
  name ∉ names df →
  pd.setitem df name v
  = mkDataFrame (index df) (columns df ++ [(name, replicate (nrows df) v)]).
Proof. intros Hn. unfold pd.setitem. by rewrite decide_False. Qed.

Lemma column_fresh (name : string) (cols : list (string * list cell)) :
  name ∉ cols.*1 → column name cols = None.
Proof.
  induction cols as [|[n col] cols IH]; [done|].
  rewrite fmap_cons, not_elem_of_cons. intros [Hne Hnin].
  cbn [column]. rewrite decide_False by done. by apply IH.
Qed.

Lemma column_app_fresh (name : string) (cols1 cols2 : list (string * list cell)) :
  name ∉ cols1.*1 → column name (cols1 ++ cols2) = column name cols2.
Proof.
  induction cols1 as [|[n col] cols1 IH]; [done|].
  rewrite fmap_cons, not_elem_of_cons. intros [Hne Hnin].
  cbn [column app]. rewrite decide_False by done. by apply IH.
Qed.

Lemma column_lookup (cols : list (string * list cell)) i name col :
  NoDup cols.*1 → cols !! i = Some (name, col) → column name cols = Some col.
Proof.
  revert i. induction cols as [|[n c] cols IH]; intros i; [done|].
  rewrite fmap_cons, NoDup_cons. intros [Hn Hnd]. destruct i as [|i]; cbn.
  - intros [= -> ->]. by rewrite decide_True.
  - intros Hi. rewrite decide_False; [by eapply IH|].
    intros ->. apply Hn. apply list_elem_of_fmap. exists (name, col).
    split; [done|]. by eapply list_elem_of_lookup_2.
Qed.

Lemma column_fmap (G : string → list cell) (ns : list string) name :
  name ∈ ns → column name ((λ n, (n, G n)) <$> ns) = Some (G name).
Proof.
  induction ns as [|n ns IH]; [by intros ?%elem_of_nil|].
  intros Hin. rewrite fmap_cons. cbn [column].
  destruct (decide (n = name)) as [->|Hne]; [done|].
  apply IH. apply elem_of_cons in Hin as [?|?]; [congruence|done].
Qed.

Lemma union_acc_elem {A} `{EqDecision A} (ls : list (list A)) (acc : list A) x :
  x ∈ foldl (λ acc l, acc ++ filter (λ x, x ∉ acc) l) acc ls
  ↔ x ∈ acc ∨ ∃ l, l ∈ ls ∧ x ∈ l.
Proof.
  revert acc. induction ls as [|l ls IH]; intros acc; cbn [foldl].
  - split; [by left|]. intros [?|(l & Hl & _)]; [done|].
    by apply elem_of_nil in Hl.
  - rewrite IH, elem_of_app, list_elem_of_filter. split.
    + intros [[?|[_ ?]]|(l' & Hl' & ?)].
      * by left.
      * right. exists l. split; [by left|done].
      * right. exists l'. split; [by right|done].
    + intros [?|(l' & Hl' & Hx)]; [by left; left|].
      apply elem_of_cons in Hl' as [->|Hl'].
      * destruct (decide (x ∈ acc)); [by left; left|by left; right].
      * right. by exists l'.
Qed.

Lemma union_elem {A} `{EqDecision A} (ls : list (list A)) x :
  x ∈ pd.union ls ↔ ∃ l, l ∈ ls ∧ x ∈ l.
Proof.
  unfold pd.union. rewrite union_acc_elem. split; [|by right].
  intros [Hx|?]; [|done]. by apply elem_of_nil in Hx.
Qed.

(** Column [name] of the rows stacked by [pd.concat] is made of the columns
    [name] of the tables, in order. *)
Lemma concat_spec (frames : list DataFrame) (name : string) :
  frames ≠ [] →
  Forall (λ g, NoDup (names g)) frames →
  Forall (λ g, name ∈ names g) frames →
  ∃ df, pd.concat frames = Ok df ∧
        index df = frames ≫= index ∧
        column name (columns df)
        = Some (frames ≫= pd.column_or_missing name).
Proof.
  intros Hne Hnd Hin. destruct frames as [|f fs]; [done|]. clear Hne.
  unfold pd.concat.
  destruct (decide (Forall (λ g, names g = names f) fs)) as [Hsame|Hdiff].
  - eexists. split; [done|]. split; [done|]. cbn [columns].
    apply Forall_cons in Hin as [Hf _]. apply Forall_cons in Hnd as [Hndf Hnds].
    apply list_elem_of_fmap in Hf as ([n col] & -> & Hc).
    apply list_elem_of_lookup in Hc as [i Hi]. cbn [fst].
    assert (Hall : Forall (λ g, default [] (snd <$> columns g !! i)
                                 = pd.column_or_missing n g) (f :: fs)).
    { apply Forall_cons. split.
      - unfold pd.column_or_missing.
        rewrite (column_lookup _ _ _ _ Hndf Hi), Hi. done.
      - apply Forall_forall. intros g Hg.
        rewrite Forall_forall in Hsame, Hnds.
        pose proof (Hsame g Hg) as Hnames. pose proof (Hnds g Hg) as Hndg.
        assert (Hgi : names g !! i = Some n).
        { rewrite Hnames. unfold names. by rewrite list_lookup_fmap, Hi. }
        unfold names in Hgi. rewrite list_lookup_fmap in Hgi.
        destruct (columns g !! i) as [[n' col']|] eqn:Hgc; [|done].
        injection Hgi as ->. unfold pd.column_or_missing.
        by rewrite (column_lookup _ _ _ _ Hndg Hgc). }
    rewrite (column_lookup _ i n
               ((f :: fs) ≫= λ g, default [] (snd <$> columns g !! i))).
    + f_equal. clear -Hall. induction Hall as [|g gs Hg _ IH]; [done|].
      by rewrite !bind_cons, Hg, IH.
    + assert (Hn : ∀ F : nat → list cell,
                (imap (λ i (c : string * list cell), (c.1, F i)) (columns f)).*1
                = names f).
      { intros F. unfold names. apply list_eq. intros j.
        rewrite !list_lookup_fmap, list_lookup_imap.
        by destruct (columns f !! j). }
      by rewrite Hn.
    + rewrite list_lookup_imap, Hi. done.
  - rewrite decide_True by done.
    eexists. split; [done|]. split; [done|]. cbn [columns].
    apply (column_fmap (λ n, (f :: fs) ≫= pd.column_or_missing n)).
    apply union_elem. exists (names f). split.
    + rewrite fmap_cons. by left.
    + by apply Forall_cons in Hin as [? _].
Qed.

(** ** [get_metrics] *)

Lemma bind_Ok {S A B} (m : M S A) (k : A → M S B) s a s' :
  m s = Ok (a, s') → bind m k s = k a s'.
Proof. intros Hm. unfold bind. by rewrite Hm. Qed.

Lemma lift_result_Ok {S A} (r : result A) (s : S) a :
  r = Ok a → lift_result r s = Ok (a, s).
Proof. by intros ->. Qed.

Section pipeline.
Variable eval_average_metrics_wstd : Aggregator.
Variables (args : Args) (model : Model).

(** Membership and non-membership in a list of literal names, by evaluation. *)
Local Ltac closed_membership := by apply (bool_decide_unpack _).

Lemma aligned_rows_fresh (lee_metrics discrete_metrics : DataFrame) name :
  aligned_rows lee_metrics discrete_metrics →
  name ∈ ["dataset"; "model"; "params"] →
  name ∉ names lee_metrics ++ names discrete_metrics.
Proof.
  intros (_ & _ & _ & _ & Hnd) Hin Hname.
  rewrite app_assoc in Hnd. apply NoDup_app in Hnd as (_ & Hdisj & _).
  by apply (Hdisj name).
Qed.

(** [get_metrics] when both calls of the aggregator return and the tables
    can be put side by side. *)
Lemma get_metrics_run key loader max_mbs w discrete_metrics lee_metrics g' merged :
  aggregator_returns eval_average_metrics_wstd loader model max_mbs (rng w)
    discrete_metrics lee_metrics g' →
  pd.concat_columns [lee_metrics; discrete_metrics] = Ok merged →
  get_metrics eval_average_metrics_wstd args key loader model max_mbs w
  = Ok (pd.setitem
          (pd.setitem (pd.setitem merged "dataset" (Str key))
             "model" (Str (modelname args)))
          "params" (Int (Z.of_nat (numparams model))),
        mkWorld g' (eval_log w ++ calls_for loader)).
Proof.
  intros (g1 & Hdisc & Hlee) Hm.
  unfold get_metrics, bind, call_aggregator, lift_result, ret.
  rewrite Hdisc. cbn [rng eval_log]. rewrite Hlee, Hm.
  unfold calls_for. by rewrite <- app_assoc.
Qed.

Lemma get_metrics_spec key loader max_mbs w discrete_metrics lee_metrics g' :
  aggregator_returns eval_average_metrics_wstd loader model max_mbs (rng w)
    discrete_metrics lee_metrics g' →
  aligned_rows lee_metrics discrete_metrics →
  get_metrics eval_average_metrics_wstd args key loader model max_mbs w
  = Ok (merged_row args model key lee_metrics discrete_metrics,
        mkWorld g' (eval_log w ++ calls_for loader)).
Proof.
  intros Hret Hok.
  pose proof (aligned_rows_fresh _ _ "dataset" Hok) as Hd.
  pose proof (aligned_rows_fresh _ _ "model" Hok) as Hm.
  pose proof (aligned_rows_fresh _ _ "params" Hok) as Hp.
  destruct Hok as (Hrow & Hidx & _).
  rewrite (get_metrics_run key loader max_mbs w _ _ _ _ Hret
             (concat_columns_aligned _ _ Hidx)).
  do 2 f_equal. unfold merged_row.
  rewrite not_elem_of_app in Hd, Hm, Hp.
  rewrite (setitem_fresh _ "dataset").
  2:{ unfold names. cbn [columns]. rewrite fmap_app, not_elem_of_app. apply Hd.
      closed_membership. }
  rewrite (setitem_fresh _ "model").
  2:{ unfold names. cbn [columns]. rewrite !fmap_app, !not_elem_of_app.
      split; [apply Hm; closed_membership|]. cbn. closed_membership. }
  rewrite (setitem_fresh _ "params").
  2:{ unfold names. cbn [columns]. rewrite !fmap_app, !not_elem_of_app.
      split; [split; [apply Hp; closed_membership|]|]; cbn; closed_membership. }
  unfold nrows in *. cbn [index columns fst snd]. rewrite Hrow. cbn [replicate].
  unfold metadata_columns.
  by rewrite <- !app_assoc.
Qed.

Lemma merged_row_facts key (lee_metrics discrete_metrics : DataFrame) :
  aligned_rows lee_metrics discrete_metrics →
  let row := merged_row args model key lee_metrics discrete_metrics in
  nrows row = 1%nat ∧
  well_formed row ∧
  NoDup (names row) ∧
  column "dataset" (columns row) = Some [Str key] ∧
  column "model" (columns row) = Some [Str (modelname args)] ∧
  column "params" (columns row) = Some [Int (Z.of_nat (numparams model))].
Proof.
  intros Hok row.
  pose proof (aligned_rows_fresh _ _ "dataset" Hok) as Hd.
  pose proof (aligned_rows_fresh _ _ "model" Hok) as Hm.
  pose proof (aligned_rows_fresh _ _ "params" Hok) as Hp.
  destruct Hok as (Hrow & Hidx & Hwl & Hwd & Hnd).
  unfold row, merged_row, nrows, well_formed, names in *. cbn [index columns fst snd].
  split; [done|]. split; [|split].
  - rewrite !Forall_app. split; [done|]. split.
    + eapply Forall_impl; [exact Hwd|]. intros c Hc. unfold nrows in *. cbn [index] in *.
      congruence.
    + unfold nrows in *. cbn [index]. rewrite Hrow. by repeat constructor.
  - by rewrite !fmap_app.
  - rewrite app_assoc, !column_app_fresh;
      rewrite ?fmap_app; [done| | |]; try (apply Hd; closed_membership);
      try (apply Hm; closed_membership); try (apply Hp; closed_membership).
Qed.

(** [get_metrics] on each pair: every row is built from the two tables the
    aggregator returned for the loader of the pair. *)
Lemma get_metrics_each_spec (pairs : list (string * DataLoader)) w :
  Forall (λ p, aggregator_ok eval_average_metrics_wstd p.2 model 400) pairs →
  ∃ rows w',
    get_metrics_each eval_average_metrics_wstd args model pairs w
    = Ok (rows, w') ∧
    eval_log w' = eval_log w ++ (pairs ≫= λ p, calls_for p.2) ∧
    Forall2 (λ p row, ∃ g discrete_metrics lee_metrics g',
        aggregator_returns eval_average_metrics_wstd p.2 model 400 g
          discrete_metrics lee_metrics g' ∧
        aligned_rows lee_metrics discrete_metrics ∧
        row = merged_row args model p.1 lee_metrics discrete_metrics) pairs rows.
Proof.
  intros Hall. revert w. induction Hall as [|[key loader] pairs Hp _ IH]; intros w.
  - exists [], w. cbn. rewrite app_nil_r. by repeat split.
  - destruct (Hp (rng w)) as (disc & lee & g' & Hret & Hrows).
    destruct (IH (mkWorld g' (eval_log w ++ calls_for loader)))
      as (rows & w' & Hrun & Hlog & Hall2).
    exists (merged_row args model key lee disc :: rows), w'. split; [|split].
    + cbn [get_metrics_each].
      rewrite (bind_Ok _ _ _ _ _ (get_metrics_spec key loader 400 w _ _ _ Hret Hrows)).
      by rewrite (bind_Ok _ _ _ _ _ Hrun).
    + rewrite Hlog. cbn [eval_log]. by rewrite bind_cons, <- app_assoc.
    + constructor; [|done]. by exists (rng w), disc, lee, g'.
Qed.

Lemma merged_rows_facts (pairs : list (string * DataLoader)) (rows : list DataFrame) :
  Forall2 (λ p row, ∃ g discrete_metrics lee_metrics g',
      aggregator_returns eval_average_metrics_wstd p.2 model 400 g
        discrete_metrics lee_metrics g' ∧
      aligned_rows lee_metrics discrete_metrics ∧
      row = merged_row args model p.1 lee_metrics discrete_metrics) pairs rows →
  Forall2 (λ p row,
      nrows row = 1%nat ∧
      well_formed row ∧
      NoDup (names row) ∧
      column "dataset" (columns row) = Some [Str p.1] ∧
      column "model" (columns row) = Some [Str (modelname args)] ∧
      column "params" (columns row) = Some [Int (Z.of_nat (numparams model))])
    pairs rows.
Proof.
  intros Hrows. eapply Forall2_impl; [exact Hrows|].
  intros p row (g & disc & lee & g' & _ & Hok & ->).
  by apply merged_row_facts.
Qed.

End pipeline.

(** The report over a list of (key, loader) pairs: one row per pair, with
    the keys in the [dataset] column. *)
Lemma report_spec (pairs : list (string * DataLoader)) (rows : list DataFrame) :
  pairs ≠ [] →
  Forall2 (λ p row,
      nrows row = 1%nat ∧ NoDup (names row) ∧
      column "dataset" (columns row) = Some [Str p.1]) pairs rows →
  ∃ df,
    pd.concat rows = Ok df ∧
    nrows df = length pairs ∧
    column "dataset" (columns df) = Some (Str <$> pairs.*1).
Proof.
  intros Hne Hfacts.
  destruct (concat_spec rows "dataset") as (df & Hdf & Hidx & Hcol).
  - intros ->. apply Forall2_nil_inv_r in Hfacts. done.
  - apply Forall_forall. intros row [i Hi]%list_elem_of_lookup.
    destruct (Forall2_lookup_r _ _ _ _ _ Hfacts Hi) as (p & _ & _ & ? & _). done.
  - apply Forall_forall. intros row [i Hi]%list_elem_of_lookup.
    destruct (Forall2_lookup_r _ _ _ _ _ Hfacts Hi) as (p & _ & _ & _ & Hc).
    unfold names. destruct (decide ("dataset" ∈ (columns row).*1)); [done|].
    by rewrite column_fresh in Hc.
  - exists df. split; [done|]. unfold nrows. rewrite Hidx, Hcol. clear -Hfacts.
    split.
    + induction Hfacts as [|p row pairs rows (Hrow & _) _ IH]; [done|].
      rewrite bind_cons, length_app, IH. unfold nrows in Hrow.
      by rewrite Hrow.
    + f_equal. induction Hfacts as [|p row pairs rows (_ & _ & Hc) _ IH]; [done|].
      rewrite !fmap_cons, bind_cons, IH. unfold pd.column_or_missing.
      by rewrite Hc.
Qed.

Lemma scenario_aggregator_ok loader model max_mbs :
  aggregator_ok scenario_aggregator loader model max_mbs.
Proof.
  intros g. eexists _, _, _. split; [eexists; split; reflexivity|].
  unfold aligned_rows, well_formed, nrows, names.
  cbn [index columns length fmap list_fmap fst snd app].
  split; [done|]. split; [done|].
  split; [by repeat constructor|]. split; [by repeat constructor|].
  by apply (bool_decide_unpack _).
Qed.

(** C7: when the two calls of the aggregator for the loader return one row
    per metric family on the same row label, with column names that do not
    collide, [get_metrics] returns a one-row table whose columns are the
    columns of the continuous family, then those of the discrete family,
    then [dataset] = the key, [model] = the model name and [params] = the
    sum of the element counts of the model's parameters. *)
Theorem get_metrics_row (eval_average_metrics_wstd : Aggregator) (args : Args)
  (key : string) (loader : DataLoader) (model : Model) (max_mbs : Z) (w : World)
  (discrete_metrics lee_metrics : DataFrame) (g' : np.random.RandomState) :
  aggregator_returns eval_average_metrics_wstd loader model max_mbs (rng w)
    discrete_metrics lee_metrics g' →
  aligned_rows lee_metrics discrete_metrics →
  ∃ metrics w',
    get_metrics eval_average_metrics_wstd args key loader model max_mbs w
    = Ok (metrics, w') ∧
    nrows metrics = 1%nat ∧
    well_formed metrics ∧
    columns metrics
    = columns lee_metrics ++ columns discrete_metrics
      ++ [("dataset", [Str key]);
          ("model", [Str (modelname args)]);
          ("params", [Int (Z.of_nat (sum_list (numel <$> parameters model)))])] ∧
    length (columns metrics)
    = (length (columns lee_metrics) + length (columns discrete_metrics) + 3)%nat.
Proof.
  intros Hret Hok.
  destruct (merged_row_facts args model key _ _ Hok) as (Hrow & Hwf & _).
  eexists _, _. split; [by apply get_metrics_spec|].
  split; [done|]. split; [done|]. split; [done|].
  unfold merged_row. cbn [columns fst snd]. rewrite !length_app. simpl. lia.
Qed.

Lemma get_metrics_row_witness :
  ∃ metrics w',
    get_metrics scenario_aggregator scenario_args "train"
      (scenario_loader population_3_2) scenario_model 400%Z world0
    = Ok (metrics, w') ∧
    nrows metrics = 1%nat ∧
    well_formed metrics ∧
    columns metrics
    = [("lee_a", [Float 0.5%float]); ("lee_b", [Float 0.25%float])]
      ++ [("disc_x", [Float 0.125%float])]
      ++ [("dataset", [Str "train"]);
          ("model", [Str (modelname scenario_args)]);
          ("params",
           [Int (Z.of_nat (sum_list (numel <$> parameters scenario_model)))])] ∧
    length (columns metrics) = (2 + 1 + 3)%nat.
Proof.
  apply (get_metrics_row scenario_aggregator scenario_args "train"
           (scenario_loader population_3_2) scenario_model 400%Z world0
           (mkDataFrame [0%Z] [("disc_x", [Float 0.125%float])])
           (mkDataFrame [0%Z]
              [("lee_a", [Float 0.5%float]); ("lee_b", [Float 0.25%float])])
           (np.random.mkRandomState (np.random.draws rng0) 2)).
  - eexists. split; reflexivity.
  - unfold aligned_rows, well_formed, nrows, names.
    cbn [index columns length fmap list_fmap fst snd app].
    split; [reflexivity|]. split; [reflexivity|].
    split; [by repeat constructor|]. split; [by repeat constructor|].
    by apply (bool_decide_unpack _).
Defined.

(** C8: over K >= 1 (key, loader) pairs for which the aggregator gives
    aligned one-row tables, [get_metrics] on each pair followed by
    [pd.concat] yields a report with exactly K rows whose [dataset] column
    lists the keys of the pairs in order. *)
Theorem report_row_count (eval_average_metrics_wstd : Aggregator) (args : Args)
  (model : Model) (pairs : list (string * DataLoader)) (w : World) :
  pairs ≠ [] →
  Forall (λ p, aggregator_ok eval_average_metrics_wstd p.2 model 400) pairs →
  ∃ evaluated_metrics df w',
    get_metrics_each eval_average_metrics_wstd args model pairs w
    = Ok (evaluated_metrics, w') ∧
    length evaluated_metrics = length pairs ∧
    Forall (λ row, nrows row = 1%nat) evaluated_metrics ∧
    pd.concat evaluated_metrics = Ok df ∧
    nrows df = length pairs ∧
    column "dataset" (columns df) = Some (Str <$> pairs.*1).
Proof.
  intros Hne Hall.
  destruct (get_metrics_each_spec eval_average_metrics_wstd args model pairs w Hall)
    as (rows & w' & Hrun & _ & Hrows).
  apply merged_rows_facts in Hrows.
  destruct (report_spec pairs rows Hne) as (df & Hdf & Hn & Hcol).
  { eapply Forall2_impl; [exact Hrows|]. by intros p row (? & _ & ? & ? & _). }
  exists rows, df, w'. split; [done|].
  split; [symmetry; by eapply Forall2_length|]. split; [|done].
  apply Forall_forall. intros row [i Hi]%list_elem_of_lookup.
  by destruct (Forall2_lookup_r _ _ _ _ _ Hrows Hi) as (p & _ & ? & _).
Qed.

Lemma report_row_count_witness :
  ∃ evaluated_metrics df w',
    get_metrics_each scenario_aggregator scenario_args scenario_model
      [("train", scenario_loader population_3_2);
       ("val", scenario_loader population_11_4)] world0
    = Ok (evaluated_metrics, w') ∧
    length evaluated_metrics
    = length [("train", scenario_loader population_3_2);
              ("val", scenario_loader population_11_4)] ∧
    Forall (λ row, nrows row = 1%nat) evaluated_metrics ∧
    pd.concat evaluated_metrics = Ok df ∧
    nrows df = length [("train", scenario_loader population_3_2);
                       ("val", scenario_loader population_11_4)] ∧
    column "dataset" (columns df)
    = Some (Str <$> [("train", scenario_loader population_3_2);
                     ("val", scenario_loader population_11_4)].*1).
Proof.
  apply (report_row_count scenario_aggregator scenario_args scenario_model
           [("train", scenario_loader population_3_2);
            ("val", scenario_loader population_11_4)] world0).
  - discriminate.
  - apply Forall_forall. intros p _. apply scenario_aggregator_ok.
Defined.

(** ** [main] *)

Lemma gathered_elem (crops : list CellCrop) size lbls groups c :
  Forall2 (group_ok (_label <$> crops) size) lbls groups →
  c ∈ gathered crops groups → c ∈ crops.
Proof.
  intros Hok. unfold gathered. rewrite list_elem_of_bind.
  intros (grp & Hc & [k Hk]%list_elem_of_lookup).
  destruct (Forall2_lookup_r _ _ _ _ _ Hok Hk) as (lbl & _ & Hg).
  eapply gather_elem; [|exact Hc]. by eapply group_ok_in_range.
Qed.

Lemma subsample_facts (crops : list CellCrop) (size : Z) g :
  (0 < size)%Z →
  ∃ out g',
    subsample_const_size crops size g = Ok (out, g') ∧
    (crops ≠ [] → out ≠ []) ∧
    (∀ c, c ∈ out → c ∈ crops).
Proof.
  intros Hsize.
  destruct (subsample_const_size_groups crops size g) as (groups & g' & _ & Hrun & Hok);
    [lia|].
  exists (gathered crops groups), g'. split; [done|]. split.
  - intros Hne Hnil. destruct crops as [|c crops]; [done|].
    pose proof (count_label_gathered (c :: crops) size _ groups (_label c)
                  (unique_NoDup _) Hok) as Hcount.
    rewrite decide_True in Hcount
      by (apply unique_elem; rewrite fmap_cons; by left).
    assert (Hpos : (0 < count_label (_label c) (c :: crops))%nat).
    { unfold count_label. rewrite filter_cons_True by done. simpl. lia. }
    rewrite Hnil in Hcount.
    change (count_label (_label c) []) with 0%nat in Hcount. lia.
  - intros c. by apply (gathered_elem _ _ _ _ _ Hok).
Qed.

(** The optional subsampling step of [main]. *)
Lemma main_subsample (size_data : option Z) (crops : list CellCrop) (w : World) :
  match size_data with Some size => (0 < size)%Z | None => True end →
  ∃ out w',
    match size_data with
    | Some size => with_rng (subsample_const_size crops size)
    | None => ret crops
    end w = Ok (out, w') ∧
    eval_log w' = eval_log w ∧
    (crops ≠ [] → out ≠ []) ∧
    (∀ c, c ∈ out → c ∈ crops).
Proof.
  destruct size_data as [size|]; intros Hsize.
  - destruct (subsample_facts crops size (rng w) Hsize)
      as (out & g' & Hrun & Hne & Hsub).
    exists out, (mkWorld g' (eval_log w)). unfold with_rng. by rewrite Hrun.
  - exists crops, w. by unfold ret.
Qed.

Lemma categories_ok (crops : list CellCrop) (hm : option (gmap string Z)) :
  match hm with
  | Some m => ∀ c, c ∈ crops → is_Some (m !! str (_label c))
  | None => True
  end →
  ∃ cats, categories crops hm = Ok cats.
Proof.
  destruct hm as [m|]; intros Hall; [|by eexists].
  destruct (map_labels_ok m (_label <$> crops)) as (cats & Hcats & _); [|by eexists].
  intros l (c & -> & Hc)%list_elem_of_fmap. by apply Hall.
Qed.

Lemma new_DataLoader_Ok (ds : CellCropsDataset) (bs nw : Z)
  (smp : option (WeightedRandomSampler float)) (sh : bool) :
  (0 < bs)%Z → (0 ≤ nw)%Z → (is_Some smp → sh = false) →
  new_DataLoader ds bs nw smp sh = Ok (mkDataLoader ds bs nw smp sh).
Proof.
  intros Hbs Hnw Hs. unfold new_DataLoader.
  rewrite decide_False by lia.
  assert (Hx : bool_decide (is_Some smp) && sh = false).
  { destruct sh; [|apply andb_false_r]. rewrite andb_true_r.
    apply bool_decide_eq_false. intros Hsome. by specialize (Hs Hsome). }
  rewrite Hx. by rewrite decide_False by lia.
Qed.

(** [main] from the sampler on: the three loaders are built, [get_metrics]
    runs on the training loader and then on the validation loader, and the
    two rows are stacked. *)
Lemma main_run (eval_average_metrics_wstd : Aggregator) (args : Args)
  (config : Config) (loaded_train_crops loaded_val_crops : list CellCrop)
  (model : Model) (w w1 w2 : World) (train_crops val_crops : list CellCrop)
  (smp : WeightedRandomSampler float) :
  match size_data config with
  | Some size =>
      with_rng (subsample_const_size
                  (filter (λ c, (0 ≤ _label c)%Z) loaded_train_crops) size)
  | None => ret (filter (λ c, (0 ≤ _label c)%Z) loaded_train_crops)
  end w
  = Ok (train_crops, w1) →
  match size_data config with
  | Some size =>
      with_rng (subsample_const_size
                  (filter (λ c, (0 ≤ _label c)%Z) loaded_val_crops) size)
  | None => ret (filter (λ c, (0 ≤ _label c)%Z) loaded_val_crops)
  end w1
  = Ok (val_crops, w2) →
  define_sampler train_crops (hierarchy_match config) = Ok smp →
  (0 < cfg_batch_size config)%Z →
  (0 ≤ cfg_num_workers config)%Z →
  (∀ loader, aggregator_ok eval_average_metrics_wstd loader model 400) →
  ∃ locals w' discrete_train lee_train g discrete_val lee_val,
    main eval_average_metrics_wstd args config loaded_train_crops
      loaded_val_crops model w = Ok (locals, w') ∧
    train_loader locals
    = mkDataLoader
        (mkDataset train_crops
           (if default true (aug config)
            then train_transform (default 100%Z (crop_input_size config)) 5
            else val_transform (default 100%Z (crop_input_size config))) true)
        (cfg_batch_size config) (cfg_num_workers config)
        (if sample_batch config then Some smp else None)
        (if sample_batch config then false else true) ∧
    train_loader_for_eval locals
    = mkDataLoader
        (mkDataset train_crops
           (val_transform (default 100%Z (crop_input_size config))) true)
        (cfg_batch_size config) (cfg_num_workers config) None false ∧
    val_loader locals
    = mkDataLoader
        (mkDataset val_crops
           (val_transform (default 100%Z (crop_input_size config))) true)
        (cfg_batch_size config) (cfg_num_workers config) None false ∧
    eval_log w'
    = eval_log w2 ++ calls_for (train_loader locals)
      ++ calls_for (val_loader locals) ∧
    aggregator_returns eval_average_metrics_wstd (train_loader locals) model 400
      (rng w2) discrete_train lee_train g ∧
    aggregator_returns eval_average_metrics_wstd (val_loader locals) model 400
      g discrete_val lee_val (rng w') ∧
    evaluated_metrics locals
    = [merged_row args model "Imagenet_train" lee_train discrete_train;
       merged_row args model "Imagenet_test" lee_val discrete_val] ∧
    pd.concat (evaluated_metrics locals) = Ok (df locals) ∧
    nrows (df locals) = 2%nat ∧
    column "dataset" (columns (df locals))
    = Some [Str "Imagenet_train"; Str "Imagenet_test"].
Proof.
  intros Hrun1 Hrun2 Hsampler Hbs Hnw Hagg.
  set (tl := mkDataLoader
        (mkDataset train_crops
           (if default true (aug config)
            then train_transform (default 100%Z (crop_input_size config)) 5
            else val_transform (default 100%Z (crop_input_size config))) true)
        (cfg_batch_size config) (cfg_num_workers config)
        (if sample_batch config then Some smp else None)
        (if sample_batch config then false else true)).
  set (tle := mkDataLoader
        (mkDataset train_crops
           (val_transform (default 100%Z (crop_input_size config))) true)
        (cfg_batch_size config) (cfg_num_workers config) None false).
  set (vl := mkDataLoader
        (mkDataset val_crops
           (val_transform (default 100%Z (crop_input_size config))) true)
        (cfg_batch_size config) (cfg_num_workers config) None false).
  destruct (Hagg tl (rng w2)) as (disc1 & lee1 & g & Hret1 & Hok1).
  destruct (Hagg vl g) as (disc2 & lee2 & g' & Hret2 & Hok2).
  set (row1 := merged_row args model "Imagenet_train" lee1 disc1).
  set (row2 := merged_row args model "Imagenet_test" lee2 disc2).
  destruct (report_spec [("Imagenet_train", tl); ("Imagenet_test", vl)] [row1; row2])
    as (report & Hreport & Hrows & Hcol); [done| |].
  { destruct (merged_row_facts args model "Imagenet_train" _ _ Hok1)
      as (? & _ & ? & ? & _).
    destruct (merged_row_facts args model "Imagenet_test" _ _ Hok2)
      as (? & _ & ? & ? & _).
    by repeat constructor. }
  assert (Hrows12 :
    get_metrics_each eval_average_metrics_wstd args model
      [("Imagenet_train", tl); ("Imagenet_test", vl)] w2
    = Ok ([row1; row2],
          mkWorld g' (eval_log w2 ++ calls_for tl ++ calls_for vl))).
  { cbn [get_metrics_each].
    rewrite (bind_Ok _ _ _ _ _
               (get_metrics_spec eval_average_metrics_wstd args model
                  "Imagenet_train" tl 400 w2 _ _ _ Hret1 Hok1)). cbv beta.
    unfold bind.
    rewrite (get_metrics_spec eval_average_metrics_wstd args model
               "Imagenet_test" vl 400
               (mkWorld g (eval_log w2 ++ calls_for tl)) _ _ _ Hret2 Hok2).
    unfold ret. cbn [eval_log]. by rewrite <- app_assoc. }
  exists (mkMainLocals tl tle vl [row1; row2] report),
    (mkWorld g' (eval_log w2 ++ calls_for tl ++ calls_for vl)),
    disc1, lee1, g, disc2, lee2.
  split; [|done].
  unfold main. cbv zeta.
  rewrite (bind_Ok _ _ _ _ _ Hrun1). cbv beta.
  rewrite (bind_Ok _ _ _ _ _ Hrun2). cbv beta.
  rewrite (bind_Ok _ _ _ _ _ (lift_result_Ok _ w2 _ Hsampler)). cbv beta.
  rewrite (bind_Ok _ _ _ _ _ (lift_result_Ok _ w2 _
             (new_DataLoader_Ok _ _ _
                (if sample_batch config then Some smp else None)
                (if sample_batch config then false else true) Hbs Hnw
                ltac:(by destruct (sample_batch config); [|intros [? ?]])))).
  cbv beta.
  rewrite (bind_Ok _ _ _ _ _ (lift_result_Ok _ w2 _
             (new_DataLoader_Ok _ _ _ None false Hbs Hnw ltac:(done)))).
  cbv beta.
  rewrite (bind_Ok _ _ _ _ _ (lift_result_Ok _ w2 _
             (new_DataLoader_Ok _ _ _ None false Hbs Hnw ltac:(done)))).
  cbv beta.
  fold tl tle vl.
  rewrite (bind_Ok _ _ _ _ _ Hrows12). cbv beta.
  change ([] ++ [row1; row2]) with [row1; row2].
  by rewrite (bind_Ok _ _ _ _ _ (lift_result_Ok _ _ _ Hreport)).
Qed.

(** C9, as amended: in a run with a positive batch size and a number of
    workers that is not negative, [main] builds the three loaders (the
    training loader with the balanced sampler or shuffling, the training
    crops under the validation transform, the validation loader), but calls
    the aggregator for two of them only, the training loader and the
    validation loader, in this order and for both metric families; the
    loader of the training crops under the validation transform differs from
    the training loader and is not passed to [get_metrics]; the report has
    two rows, with keys "Imagenet_train" and "Imagenet_test". *)
Theorem main_two_loaders (eval_average_metrics_wstd : Aggregator) (args : Args)
  (config : Config) (loaded_train_crops loaded_val_crops : list CellCrop)
  (model : Model) (w : World) :
  filter (λ c, (0 ≤ _label c)%Z) loaded_train_crops ≠ [] →
  match size_data config with Some size => (0 < size)%Z | None => True end →
  match hierarchy_match config with
  | Some m =>
      ∀ c, c ∈ loaded_train_crops → (0 ≤ _label c)%Z →
           is_Some (m !! str (_label c))
  | None => True
  end →
  (0 < cfg_batch_size config)%Z →
  (0 ≤ cfg_num_workers config)%Z →
  (∀ loader, aggregator_ok eval_average_metrics_wstd loader model 400) →
  ∃ locals w' train_crops val_crops sampler,
    main eval_average_metrics_wstd args config loaded_train_crops
      loaded_val_crops model w = Ok (locals, w') ∧
    define_sampler train_crops (hierarchy_match config) = Ok sampler ∧
    train_loader locals
    = mkDataLoader
        (mkDataset train_crops
           (if default true (aug config)
            then train_transform (default 100%Z (crop_input_size config)) 5
            else val_transform (default 100%Z (crop_input_size config))) true)
        (cfg_batch_size config) (cfg_num_workers config)
        (if sample_batch config then Some sampler else None)
        (if sample_batch config then false else true) ∧
    train_loader_for_eval locals
    = mkDataLoader
        (mkDataset train_crops
           (val_transform (default 100%Z (crop_input_size config))) true)
        (cfg_batch_size config) (cfg_num_workers config) None false ∧
    val_loader locals
    = mkDataLoader
        (mkDataset val_crops
           (val_transform (default 100%Z (crop_input_size config))) true)
        (cfg_batch_size config) (cfg_num_workers config) None false ∧
    train_loader_for_eval locals ≠ train_loader locals ∧
    eval_log w'
    = eval_log w
      ++ [(train_loader locals, get_discrete_metrics);
          (train_loader locals, get_lee_metrics);
          (val_loader locals, get_discrete_metrics);
          (val_loader locals, get_lee_metrics)] ∧
    length (evaluated_metrics locals) = 2%nat ∧
    nrows (df locals) = 2%nat ∧
    column "dataset" (columns (df locals))
    = Some [Str "Imagenet_train"; Str "Imagenet_test"].
Proof.
  intros Hne Hsize Hmap Hbs Hnw Hagg.
  destruct (main_subsample (size_data config)
              (filter (λ c, (0 ≤ _label c)%Z) loaded_train_crops) w Hsize)
    as (train_crops & w1 & Hrun1 & Hlog1 & Hne1 & Hsub1).
  destruct (main_subsample (size_data config)
              (filter (λ c, (0 ≤ _label c)%Z) loaded_val_crops) w1 Hsize)
    as (val_crops & w2 & Hrun2 & Hlog2 & _ & _).
  destruct (categories_ok train_crops (hierarchy_match config)) as [cats Hcats].
  { destruct (hierarchy_match config) as [m|]; [|done].
    intros c Hc%Hsub1. apply list_elem_of_filter in Hc as [? ?].
    by apply Hmap. }
  pose proof (define_sampler_spec (R := float) train_crops _ cats Hcats (Hne1 Hne))
    as Hsampler.
  destruct (main_run eval_average_metrics_wstd args config loaded_train_crops
              loaded_val_crops model w w1 w2 train_crops val_crops _
              Hrun1 Hrun2 Hsampler Hbs Hnw Hagg)
    as (locals & w' & disc1 & lee1 & g & disc2 & lee2 & Hmain & Htl & Htle & Hvl
        & Hlog & _ & _ & Hrows & _ & Hn & Hcol).
  exists locals, w', train_crops, val_crops,
    (mkSampler (inverse_frequency cats <$> cats) (length train_crops) true).
  split; [done|]. split; [done|]. split; [done|]. split; [done|]. split; [done|].
  split.
  { rewrite Htl, Htle. destruct (sample_batch config); intros Heq; by injection Heq. }
  split; [by rewrite Hlog, Hlog2, Hlog1|].
  split; [by rewrite Hrows|]. done.
Qed.

Lemma main_two_loaders_witness :
  ∃ locals w' train_crops val_crops sampler,
    main scenario_aggregator scenario_args scenario_config population_3_2
      population_11_4 scenario_model world0 = Ok (locals, w') ∧
    define_sampler train_crops (hierarchy_match scenario_config) = Ok sampler ∧
    train_loader locals
    = mkDataLoader
        (mkDataset train_crops
           (if default true (aug scenario_config)
            then train_transform
                   (default 100%Z (crop_input_size scenario_config)) 5
            else val_transform
                   (default 100%Z (crop_input_size scenario_config))) true)
        (cfg_batch_size scenario_config) (cfg_num_workers scenario_config)
        (if sample_batch scenario_config then Some sampler else None)
        (if sample_batch scenario_config then false else true) ∧
    train_loader_for_eval locals
    = mkDataLoader
        (mkDataset train_crops
           (val_transform (default 100%Z (crop_input_size scenario_config)))
           true)
        (cfg_batch_size scenario_config) (cfg_num_workers scenario_config)
        None false ∧
    val_loader locals
    = mkDataLoader
        (mkDataset val_crops
           (val_transform (default 100%Z (crop_input_size scenario_config)))
           true)
        (cfg_batch_size scenario_config) (cfg_num_workers scenario_config)
        None false ∧
    train_loader_for_eval locals ≠ train_loader locals ∧
    eval_log w'
    = eval_log world0
      ++ [(train_loader locals, get_discrete_metrics);
          (train_loader locals, get_lee_metrics);
          (val_loader locals, get_discrete_metrics);
          (val_loader locals, get_lee_metrics)] ∧
    length (evaluated_metrics locals) = 2%nat ∧
    nrows (df locals) = 2%nat ∧
    column "dataset" (columns (df locals))
    = Some [Str "Imagenet_train"; Str "Imagenet_test"].
Proof.
  apply (main_two_loaders scenario_aggregator scenario_args scenario_config
           population_3_2 population_11_4 scenario_model world0).
  - vm_compute. discriminate.
  - simpl. lia.
  - simpl. exact I.
  - simpl. lia.
  - simpl. lia.
  - intros loader. apply scenario_aggregator_ok.
Defined.

(** C9 as stated fails: on the scenario inputs the aggregator is never called
    on the loader of the training crops under the validation transform, so
    the pipeline does not run over each of the three loaders. *)
Lemma main_three_loaders_counterexample :
  ∃ locals w',
    main scenario_aggregator scenario_args scenario_config population_3_2
      population_11_4 scenario_model world0 = Ok (locals, w') ∧
    length (eval_log w') = 4%nat ∧
    (train_loader_for_eval locals ∉ fst <$> eval_log w') ∧
    ¬ (∀ loader,
         loader ∈ [train_loader locals; train_loader_for_eval locals;
                   val_loader locals] →
         loader ∈ fst <$> eval_log w').
Proof.
  eexists _, _. split; [vm_compute; reflexivity|].
  cbn [train_loader train_loader_for_eval val_loader eval_log fmap list_fmap
       fst length].
  split; [reflexivity|].
  split.
  - intros Hin. repeat (apply elem_of_cons in Hin as [Hin|Hin]; [discriminate Hin|]).
    by apply elem_of_nil in Hin.
  - intros Hall. specialize (Hall _ ltac:(right; left; reflexivity)).
    repeat (apply elem_of_cons in Hall as [Hall|Hall]; [discriminate Hall|]).
    by apply elem_of_nil in Hall.
Qed.

(** The category maps of the examples: every label of the small population
    has an entry in [hierarchy_both], label 1 has none in
    [hierarchy_only_0]. *)
Example category_map_examples :
  define_sampler (R := float) population_3_2 (Some hierarchy_both)
  = Ok (mkSampler (replicate 5 1%float) 5 true) ∧
  define_sampler (R := float) population_3_2 (Some hierarchy_only_0)
  = Raise (KeyError "1").
Proof. split; by vm_compute. Qed.

(** The scenario of the spec: two datasets, each with the continuous columns
    [lee_a], [lee_b] and the discrete column [disc_x], give a report of two
    rows on the six columns. *)
Example report_scenario :
  ∃ rows report w',
    get_metrics_each scenario_aggregator scenario_args scenario_model
      [("train", scenario_loader population_3_2);
       ("val", scenario_loader population_11_4)] world0
    = Ok (rows, w') ∧
    pd.concat rows = Ok report ∧
    names report = ["lee_a"; "lee_b"; "disc_x"; "dataset"; "model"; "params"] ∧
    nrows report = 2%nat ∧
    column "dataset" (columns report) = Some [Str "train"; Str "val"] ∧
    column "params" (columns report) = Some [Int 16; Int 16].
Proof.
  eexists _, _, _. split; [vm_compute; reflexivity|].
  split; [vm_compute; reflexivity|]. by vm_compute.
Qed.

(** * Further properties of the code *)

(** ** [subsample_const_size]: when it returns, and what it returns *)

Lemma subsample_run (crops : list CellCrop) (size : Z) g :
  (0 ≤ size)%Z ∨ crops = [] →
  ∃ groups g',
    subsample_const_size crops size g = Ok (gathered crops groups, g') ∧
    Forall2 (group_ok (_label <$> crops) size)
      (np.unique (_label <$> crops)) groups.
Proof.
  intros [Hsize| ->].
  - destruct (subsample_const_size_groups crops size g Hsize)
      as (groups & g' & _ & Hrun & Hok). by exists groups, g'.
  - exists [], g. split; [done|]. constructor.
Qed.

Lemma subsample_negative (crops : list CellCrop) (size : Z) g :
  crops ≠ [] → (size < 0)%Z →
  subsample_const_size crops size g
  = Raise (ValueError "negative dimensions are not allowed").
Proof.
  intros Hne Hneg. unfold subsample_const_size.
  destruct (np.unique (_label <$> crops)) as [|lbl lbls] eqn:Hu.
  - destruct crops as [|c crops]; [done|].
    assert (Hin : _label c ∈ np.unique (_label <$> c :: crops)).
    { apply unique_elem. rewrite fmap_cons. by left. }
    rewrite Hu in Hin. by apply elem_of_nil in Hin.
  - cbn [subsample_loop]. unfold bind at 1.
    rewrite choose_indices_negative; [done| |done].
    apply unique_elem. rewrite Hu. by left.
Qed.

(** X1: [subsample_const_size] returns a population exactly when the size is
    not negative or the population is empty; otherwise it raises the error
    of the draw. *)
Theorem subsample_const_size_returns_iff (crops : list CellCrop) (size : Z) g :
  ((∃ out g', subsample_const_size crops size g = Ok (out, g'))
   ↔ (0 ≤ size)%Z ∨ crops = []) ∧
  ((∃ e, subsample_const_size crops size g = Raise e)
   ↔ (size < 0)%Z ∧ crops ≠ []).
Proof.
  destruct (decide ((0 ≤ size)%Z ∨ crops = [])) as [Hdom|Hdom].
  - destruct (subsample_run crops size g Hdom) as (groups & g' & Hrun & _).
    split; split.
    + done.
    + intros _. eauto.
    + intros [e He]. congruence.
    + intros [Hneg Hne]. destruct Hdom; [lia|done].
  - assert (Hneg : (size < 0)%Z) by (apply Z.nle_gt; intros ?; apply Hdom; by left).
    assert (Hne : crops ≠ []) by (intros ?; apply Hdom; by right).
    pose proof (subsample_negative crops size g Hne Hneg) as Hrun.
    split; split.
    + intros (out & g' & Hok). congruence.
    + done.
    + done.
    + intros _. eauto.
Qed.

Lemma gathered_fmap (crops : list CellCrop) (groups : list (Z * list nat)) :
  gathered crops groups = (λ i, crops !!! i) <$> (groups ≫= snd).
Proof.
  unfold gathered. induction groups as [|grp groups IH]; [done|].
  by rewrite !bind_cons, fmap_app, IH.
Qed.

Lemma group_indices_labelled (labels : list Z) size lbls groups i :
  Forall2 (group_ok labels size) lbls groups →
  i ∈ groups ≫= snd → ∃ l, l ∈ lbls ∧ labels !! i = Some l.
Proof.
  induction 1 as [|l grp lbls groups (_ & _ & _ & Hf & _) _ IH].
  - by intros ?%elem_of_nil.
  - rewrite bind_cons, elem_of_app. intros [Hi|Hi].
    + exists l. split; [by left|]. rewrite Forall_forall in Hf. by apply Hf.
    + destruct (IH Hi) as (l' & ? & ?). exists l'. split; [by right|done].
Qed.

Lemma group_indices_NoDup (labels : list Z) size lbls groups :
  NoDup lbls →
  Forall2 (group_ok labels size) lbls groups →
  NoDup (groups ≫= snd).
Proof.
  intros Hnd Hok. induction Hok as [|l grp lbls groups Hg Hok IH]; [constructor|].
  apply NoDup_cons in Hnd as [Hl Hnd]. rewrite bind_cons. apply NoDup_app.
  destruct Hg as (_ & _ & Hgnd & Hf & _).
  split; [done|]. split; [|by apply IH].
  intros i Hi Hi'. rewrite Forall_forall in Hf.
  destruct (group_indices_labelled _ _ _ _ _ Hok Hi') as (l' & Hl' & Hlab).
  rewrite (Hf i Hi) in Hlab. injection Hlab as <-. done.
Qed.

Lemma group_indices_length (labels : list Z) size lbls groups :
  Forall2 (group_ok labels size) lbls groups →
  (length (groups ≫= snd) ≤ length lbls * Z.to_nat size)%nat.
Proof.
  induction 1 as [|l grp lbls groups (_ & Hlen & _) _ IH]; [done|].
  rewrite bind_cons, length_app. simpl. lia.
Qed.

Lemma lookup_total_submseteq {A} `{Inhabited A} (a : list A) (idx : list nat) :
  NoDup idx → Forall (λ i, (i < length a)%nat) idx →
  (λ i, a !!! i) <$> idx ⊆+ a.
Proof.
  intros Hnd Hrange.
  assert (Hs : (λ i, a !!! i) <$> idx ⊆+ (λ i, a !!! i) <$> seq 0 (length a)).
  { apply fmap_submseteq. apply NoDup_submseteq; [done|].
    intros i Hi. rewrite Forall_forall in Hrange.
    apply elem_of_seq. specialize (Hrange i Hi). lia. }
  by rewrite fmap_lookup_total_seq in Hs.
Qed.

(** X2: for a size that is not negative the result never holds an input
    crop more often than the input does and never invents one (it is a
    sub-multiset of the input), and it has at most [size] crops of each
    label, hence at most [size] crops per distinct label in total. *)
Theorem subsample_const_size_submultiset (crops : list CellCrop) (size : Z) g :
  (0 ≤ size)%Z →
  ∃ out g',
    subsample_const_size crops size g = Ok (out, g') ∧
    out ⊆+ crops ∧
    (length out ≤ length crops)%nat ∧
    (∀ lbl, (Z.of_nat (count_label lbl out) ≤ size)%Z) ∧
    (Z.of_nat (length out)
     ≤ Z.of_nat (length (np.unique (_label <$> crops))) * size)%Z.
Proof.
  intros Hsize.
  destruct (subsample_run crops size g (or_introl Hsize))
    as (groups & g' & Hrun & Hok).
  exists (gathered crops groups), g'. split; [done|].
  assert (Hsub : gathered crops groups ⊆+ crops).
  { rewrite gathered_fmap. apply lookup_total_submseteq.
    - eapply group_indices_NoDup; [apply unique_NoDup|exact Hok].
    - apply Forall_forall. intros i Hi.
      destruct (group_indices_labelled _ _ _ _ _ Hok Hi) as (l & _ & Hl).
      apply lookup_lt_Some in Hl. by rewrite length_fmap in Hl. }
  split; [done|]. split; [by apply submseteq_length|]. split.
  - intros lbl.
    rewrite (count_label_gathered _ _ _ _ lbl (unique_NoDup _) Hok).
    case_decide; lia.
  - rewrite gathered_fmap, length_fmap.
    pose proof (group_indices_length _ _ _ _ Hok) as Hlen. nia.
Qed.

Lemma subsample_const_size_submultiset_witness :
  ∃ out g',
    subsample_const_size population_3_2 2 rng0 = Ok (out, g') ∧
    out ⊆+ population_3_2 ∧
    (length out ≤ length population_3_2)%nat ∧
    (∀ lbl, (Z.of_nat (count_label lbl out) ≤ 2)%Z) ∧
    (Z.of_nat (length out)
     ≤ Z.of_nat (length (np.unique (_label <$> population_3_2))) * 2)%Z.
Proof. apply (subsample_const_size_submultiset population_3_2 2 rng0). lia. Defined.

(** ** [subsample_const_size]: the order of the result *)

Lemma remove_dups_StronglySorted (l : list Z) :
  StronglySorted Z.le l → StronglySorted Z.le (remove_dups l).
Proof.
  induction 1 as [|x l _ IH Hx]; [apply SSorted_nil|]. cbn [remove_dups].
  destruct (decide_rel elem_of x l); [done|]. apply SSorted_cons; [done|].
  apply Forall_forall. intros y Hy. rewrite elem_of_remove_dups in Hy.
  rewrite Forall_forall in Hx. by apply Hx.
Qed.

Lemma unique_StronglySorted (labels : list Z) :
  StronglySorted Z.le (np.unique labels).
Proof. apply remove_dups_StronglySorted, StronglySorted_merge_sort; apply _. Qed.

Lemma gathered_labels_elem (crops : list CellCrop) size lbls groups x :
  Forall2 (group_ok (_label <$> crops) size) lbls groups →
  x ∈ _label <$> gathered crops groups → x ∈ lbls.
Proof.
  unfold gathered. induction 1 as [|l grp lbls groups Hg _ IH].
  - by intros ?%elem_of_nil.
  - rewrite bind_cons, fmap_app, elem_of_app. intros [Hx|Hx].
    + apply list_elem_of_fmap in Hx as (c & -> & Hc).
      pose proof (group_items_label _ _ _ _ Hg) as Hl.
      rewrite Forall_forall in Hl. rewrite (Hl c Hc). by left.
    + right. by apply IH.
Qed.

Lemma gathered_labels_sorted (crops : list CellCrop) size lbls groups :
  StronglySorted Z.le lbls →
  Forall2 (group_ok (_label <$> crops) size) lbls groups →
  StronglySorted Z.le (_label <$> gathered crops groups).
Proof.
  intros Hs Hok. induction Hok as [|l grp lbls groups Hg Hok IH]; [constructor|].
  apply StronglySorted_cons in Hs as [Hl Hs]. unfold gathered in *.
  rewrite bind_cons, fmap_app. apply StronglySorted_app_2.
  - intros x1 x2 Hx1 Hx2.
    apply list_elem_of_fmap in Hx1 as (c & -> & Hc).
    pose proof (group_items_label _ _ _ _ Hg) as Hlab.
    rewrite Forall_forall in Hlab. rewrite (Hlab c Hc).
    rewrite Forall_forall in Hl. apply Hl.
    by eapply gathered_labels_elem.
  - pose proof (group_items_label _ _ _ _ Hg) as Hlab.
    induction Hlab as [|c cs Hc Hcs IHc]; [constructor|].
    rewrite fmap_cons. constructor; [done|].
    apply Forall_fmap. eapply Forall_impl; [exact Hcs|].
    intros c' Hc'. unfold compose. cbv beta in Hc, Hc' |- *. lia.
  - by apply IH.
Qed.

(** X3: the result is grouped by label in ascending order of the labels: its
    sequence of labels is sorted. *)
Theorem subsample_const_size_sorted (crops : list CellCrop) (size : Z) g :
  (0 ≤ size)%Z ∨ crops = [] →
  ∃ out g',
    subsample_const_size crops size g = Ok (out, g') ∧
    StronglySorted Z.le (_label <$> out).
Proof.
  intros Hdom.
  destruct (subsample_run crops size g Hdom) as (groups & g' & Hrun & Hok).
  exists (gathered crops groups), g'. split; [done|].
  eapply gathered_labels_sorted; [apply unique_StronglySorted|exact Hok].
Qed.

Lemma subsample_const_size_sorted_witness :
  ∃ out g',
    subsample_const_size (crops_of 1 0 3 ++ crops_of 0 3 2) 2 rng0
    = Ok (out, g') ∧
    StronglySorted Z.le (_label <$> out).
Proof.
  apply (subsample_const_size_sorted (crops_of 1 0 3 ++ crops_of 0 3 2) 2 rng0).
  left. lia.
Defined.

(** ** [subsample_const_size]: no draw for classes below the size *)

Lemma subsample_loop_below (crops : list CellCrop) size lbls acc g :
  (∀ lbl, (Z.of_nat (count_label lbl crops) < size)%Z) →
  subsample_loop crops (_label <$> crops) size lbls acc g
  = Ok (acc ++ lbls ≫= (λ l, filter (λ c, _label c = l) crops), g).
Proof.
  intros Hall. revert acc. induction lbls as [|l lbls IH]; intros acc.
  - cbn. by rewrite app_nil_r.
  - cbn [subsample_loop]. unfold bind at 1, choose_indices.
    rewrite sum_eq_mask, count_label_labels.
    rewrite decide_True by apply Hall. unfold ret at 1.
    unfold bind at 1, lift_result. rewrite take_in_range.
    2:{ apply Forall_forall. intros i Hi%argwhere_eq_elem.
        apply lookup_lt_Some in Hi. by rewrite length_fmap in Hi. }
    rewrite gather_argwhere, IH, bind_cons. by rewrite <- app_assoc.
Qed.

(** X4: when every class has fewer crops than [size], nothing is drawn: the
    generator is left as it was and the result is the input regrouped by
    ascending label, each class in its original order. *)
Theorem subsample_const_size_below (crops : list CellCrop) (size : Z) g :
  (∀ lbl, (Z.of_nat (count_label lbl crops) < size)%Z) →
  subsample_const_size crops size g
  = Ok (np.unique (_label <$> crops) ≫= (λ l, filter (λ c, _label c = l) crops),
        g).
Proof. intros Hall. unfold subsample_const_size. by rewrite subsample_loop_below. Qed.

Lemma subsample_const_size_below_witness :
  subsample_const_size population_3_2 6 rng0
  = Ok (np.unique (_label <$> population_3_2)
          ≫= (λ l, filter (λ c, _label c = l) population_3_2), rng0).
Proof.
  apply (subsample_const_size_below population_3_2 6 rng0).
  intros lbl. unfold count_label.
  pose proof (length_filter (λ c, _label c = lbl) population_3_2) as Hle.
  change (length population_3_2) with 5%nat in Hle. lia.
Defined.

(** ** [subsample_const_size]: a second pass keeps everything *)

Lemma subsample_all (crops : list CellCrop) (size : Z) g :
  (0 ≤ size)%Z →
  (∀ lbl, (count_label lbl crops ≤ Z.to_nat size)%nat) →
  ∃ out g', subsample_const_size crops size g = Ok (out, g') ∧ out ≡ₚ crops.
Proof.
  intros Hsize Hall.
  destruct (subsample_run crops size g (or_introl Hsize))
    as (groups & g' & Hrun & Hok).
  exists (gathered crops groups), g'. split; [done|].
  rewrite (gathered_all crops size _ _ Hall Hok).
  apply (bind_filter_Permutation _label); [apply unique_NoDup|].
  intros c Hc. apply unique_elem, list_elem_of_fmap. eauto.
Qed.

(** X5: subsampling the result again with the same size keeps every crop:
    the second result is a permutation of the first. *)
Theorem subsample_const_size_twice (crops : list CellCrop) (size : Z) g :
  (0 ≤ size)%Z →
  ∃ out g',
    subsample_const_size crops size g = Ok (out, g') ∧
    ∀ g2, ∃ out2 g3,
      subsample_const_size out size g2 = Ok (out2, g3) ∧ out2 ≡ₚ out.
Proof.
  intros Hsize.
  destruct (subsample_run crops size g (or_introl Hsize))
    as (groups & g' & Hrun & Hok).
  exists (gathered crops groups), g'. split; [done|].
  intros g2. apply subsample_all; [done|].
  intros lbl.
  rewrite (count_label_gathered _ _ _ _ lbl (unique_NoDup _) Hok).
  case_decide; lia.
Qed.

Lemma subsample_const_size_twice_witness :
  ∃ out g',
    subsample_const_size population_80_20 30 rng0 = Ok (out, g') ∧
    ∀ g2, ∃ out2 g3,
      subsample_const_size out 30 g2 = Ok (out2, g3) ∧ out2 ≡ₚ out.
Proof. apply (subsample_const_size_twice population_80_20 30 rng0). lia. Defined.

(** ** [define_sampler]: every outcome *)

(** X6: [define_sampler] either returns a sampler (for a non-empty
    population, with one weight per item, as many draws as items, with
    replacement), or raises the key error of a label without category, or
    raises the value error of an empty population; it never divides by zero
    and never fails to find a weight. *)
Theorem define_sampler_outcome {R : Type} `{TrueDiv R}
  (crops : list CellCrop) (hm : option (gmap string Z)) :
  match define_sampler (R := R) crops hm with
  | Ok s =>
      crops ≠ [] ∧ num_samples s = length crops ∧
      length (weights s) = length crops ∧ replacement s = true
  | Raise (KeyError k) =>
      ∃ m c, hm = Some m ∧ c ∈ crops ∧ m !! str (_label c) = None ∧
             k = str (_label c)
  | Raise (ValueError _) => crops = []
  | Raise _ => False
  end.
Proof.
  destruct (categories crops hm) as [cats|e] eqn:Hcats.
  - destruct crops as [|c crops].
    + by rewrite define_sampler_empty.
    + rewrite (define_sampler_spec _ _ _ Hcats) by done. cbn [num_samples weights replacement].
      split; [done|]. split; [done|]. split; [|done].
      by rewrite length_fmap, (categories_length _ _ _ Hcats).
  - unfold define_sampler. rewrite (samples_weight_raise _ _ _ Hcats). cbn [rbind].
    destruct hm as [m|]; [|done]. cbn [categories] in Hcats.
    apply map_labels_raise in Hcats as (l & Hl & Hnone & ->).
    apply list_elem_of_fmap in Hl as (c & -> & Hc). by exists m, c.
Qed.

(** X7: two items of the same category get the same weight, whatever their
    labels; every item has a weight. *)
Theorem define_sampler_same_category {R : Type} `{TrueDiv R}
  (crops : list CellCrop) (hm : option (gmap string Z)) (cats : list Z) :
  categories crops hm = Ok cats → crops ≠ [] →
  ∃ s,
    define_sampler (R := R) crops hm = Ok s ∧
    ∀ i j c, cats !! i = Some c → cats !! j = Some c →
      is_Some (weights s !! i) ∧ weights s !! i = weights s !! j.
Proof.
  intros Hcats Hne. eexists. split; [by apply define_sampler_spec|].
  cbn [weights]. intros i j c Hi Hj. rewrite !list_lookup_fmap, Hi, Hj. eauto.
Qed.

Lemma define_sampler_same_category_witness :
  ∃ s,
    define_sampler (R := float) population_3_2 (Some hierarchy_both) = Ok s ∧
    ∀ i j c, replicate 5 7%Z !! i = Some c → replicate 5 7%Z !! j = Some c →
      is_Some (weights s !! i) ∧ weights s !! i = weights s !! j.
Proof.
  apply (define_sampler_same_category population_3_2 (Some hierarchy_both)
           (replicate 5 7%Z)); [by vm_compute|discriminate].
Defined.

(** ** [define_sampler]: the size of the weights, in exact arithmetic *)

Lemma count_cat_le (cats : list Z) c : (count_cat c cats ≤ length cats)%nat.
Proof. apply length_filter. Qed.

Lemma inject_Z_pos (n : nat) : (0 < n)%nat → (0 < inject_Z (Z.of_nat n))%Q.
Proof.
  intros Hn. change 0%Q with (inject_Z 0). rewrite <- Zlt_Qlt. lia.
Qed.

Lemma inverse_frequency_bounds (cats : list Z) c :
  c ∈ cats →
  (1 <= inverse_frequency (R := Q) cats c)%Q ∧
  (inverse_frequency (R := Q) cats c <= inject_Z (Z.of_nat (length cats)))%Q.
Proof.
  intros Hc%count_cat_pos. pose proof (count_cat_le cats c) as Hle.
  unfold inverse_frequency, true_div, Q_true_div. split.
  - apply Qle_shift_div_l; [by apply inject_Z_pos|].
    rewrite Qmult_1_l, <- Zle_Qle. lia.
  - apply Qle_shift_div_r; [by apply inject_Z_pos|].
    rewrite <- inject_Z_mult, <- Zle_Qle. nia.
Qed.

Lemma inverse_frequency_antitone (cats : list Z) c1 c2 :
  c1 ∈ cats → c2 ∈ cats →
  (count_cat c1 cats ≤ count_cat c2 cats)%nat →
  (inverse_frequency (R := Q) cats c2 <= inverse_frequency (R := Q) cats c1)%Q.
Proof.
  intros H1%count_cat_pos H2%count_cat_pos Hle.
  unfold inverse_frequency, true_div, Q_true_div.
  apply Qle_shift_div_r; [by apply inject_Z_pos|].
  assert (Hne : ¬ (inject_Z (Z.of_nat (count_cat c1 cats)) == 0)%Q).
  { intros Hz. unfold Qeq in Hz. cbn [Qnum Qden inject_Z] in Hz. lia. }
  assert (Heq : (inject_Z (Z.of_nat (length cats))
                 / inject_Z (Z.of_nat (count_cat c1 cats))
                 * inject_Z (Z.of_nat (count_cat c2 cats))
                 == inject_Z (Z.of_nat (length cats))
                    * inject_Z (Z.of_nat (count_cat c2 cats))
                    / inject_Z (Z.of_nat (count_cat c1 cats)))%Q) by (by field).
  rewrite Heq.
  apply Qle_shift_div_l; [by apply inject_Z_pos|].
  rewrite <- !inject_Z_mult, <- Zle_Qle. nia.
Qed.

(** X9: in exact arithmetic every weight lies between 1 and the number of
    items, and an item of a category with fewer items never gets a smaller
    weight than an item of a category with more items. *)
Theorem define_sampler_weight_order (crops : list CellCrop)
  (hm : option (gmap string Z)) (cats : list Z) :
  categories crops hm = Ok cats → crops ≠ [] →
  ∃ s : WeightedRandomSampler Q,
    define_sampler crops hm = Ok s ∧
    Forall (λ w, (1 <= w)%Q ∧ (w <= inject_Z (Z.of_nat (length crops)))%Q)
      (weights s) ∧
    ∀ i j ci cj wi wj,
      cats !! i = Some ci → cats !! j = Some cj →
      weights s !! i = Some wi → weights s !! j = Some wj →
      (count_cat ci cats ≤ count_cat cj cats)%nat → (wj <= wi)%Q.
Proof.
  intros Hcats Hne. eexists. split; [by apply define_sampler_spec|].
  cbn [weights]. rewrite <- (categories_length _ _ _ Hcats). split.
  - apply Forall_fmap, Forall_forall. intros c Hc.
    by apply inverse_frequency_bounds.
  - intros i j ci cj wi wj Hi Hj. rewrite !list_lookup_fmap, Hi, Hj.
    intros [= <-] [= <-] Hle.
    apply inverse_frequency_antitone; [by eapply list_elem_of_lookup_2..|done].
Qed.

Lemma define_sampler_weight_order_witness :
  ∃ s : WeightedRandomSampler Q,
    define_sampler population_11_4 None = Ok s ∧
    Forall (λ w, (1 <= w)%Q ∧ (w <= inject_Z (Z.of_nat (length population_11_4)))%Q)
      (weights s) ∧
    ∀ i j ci cj wi wj,
      (_label <$> population_11_4) !! i = Some ci →
      (_label <$> population_11_4) !! j = Some cj →
      weights s !! i = Some wi → weights s !! j = Some wj →
      (count_cat ci (_label <$> population_11_4)
       ≤ count_cat cj (_label <$> population_11_4))%nat → (wj <= wi)%Q.
Proof.
  apply (define_sampler_weight_order population_11_4 None
           (_label <$> population_11_4)); [reflexivity|discriminate].
Defined.

(** ** [numparams] *)

Lemma numel_zero (p : Tensor) : numel p = 0%nat ↔ 0%nat ∈ shape p.
Proof.
  unfold numel. induction (shape p) as [|d ds IH]; cbn [foldr].
  - split; [done|]. by intros ?%elem_of_nil.
  - rewrite elem_of_cons, <- IH. split.
    + intros [->|?]%Nat.eq_mul_0; [by left|by right].
    + intros [<-|Hz]; [done|]. rewrite Hz. lia.
Qed.

Lemma sum_list_zero (l : list nat) : sum_list l = 0%nat ↔ Forall (λ n, n = 0%nat) l.
Proof.
  induction l as [|n l IH]; cbn.
  - split; [constructor|done].
  - rewrite Forall_cons, <- IH. lia.
Qed.

Lemma sum_list_Permutation (l1 l2 : list nat) :
  l1 ≡ₚ l2 → sum_list l1 = sum_list l2.
Proof.
  induction 1 as [ | x l1 l2 _ IH | x y l | l1 l2 l3 _ IH1 _ IH2 ]; cbn; lia.
Qed.

(** X10: the parameter count does not depend on the order of the parameters,
    and it is zero exactly when every parameter has a dimension of size 0 (in
    particular for a model without parameters). *)
Theorem numparams_count (model model' : Model) :
  (parameters model ≡ₚ parameters model' → numparams model = numparams model') ∧
  (numparams model = 0%nat
   ↔ Forall (λ p, 0%nat ∈ shape p) (parameters model)).
Proof.
  unfold numparams. split.
  - intros Hp. apply sum_list_Permutation. by rewrite Hp.
  - rewrite sum_list_zero, Forall_fmap. apply Forall_iff. intros p. apply numel_zero.
Qed.

(** ** [get_metrics]: what holds for every aggregator *)

Lemma column_app_other (name name' : string) (cols : list (string * list cell))
  (col : list cell) :
  name ≠ name' → column name' (cols ++ [(name, col)]) = column name' cols.
Proof.
  intros Hne. induction cols as [|[n c] cols IH]; cbn [app column].
  - by rewrite decide_False.
  - by rewrite IH.
Qed.

Lemma column_overwrite_eq (name : string) (col : list cell)
  (cols : list (string * list cell)) :
  name ∈ cols.*1 →
  column name ((λ c, if decide (c.1 = name) then (c.1, col) else c) <$> cols)
  = Some col.
Proof.
  induction cols as [|[n c] cols IH]; [by intros ?%elem_of_nil|].
  rewrite !fmap_cons, elem_of_cons. cbn [fst]. intros Hin.
  destruct (decide (n = name)) as [->|Hne]; cbn [column fst].
  - by rewrite decide_True.
  - rewrite decide_False by done. apply IH. by destruct Hin.
Qed.

Lemma column_overwrite_ne (name name' : string) (col : list cell)
  (cols : list (string * list cell)) :
  name ≠ name' →
  column name' ((λ c, if decide (c.1 = name) then (c.1, col) else c) <$> cols)
  = column name' cols.
Proof.
  intros Hne. induction cols as [|[n c] cols IH]; [done|].
  rewrite fmap_cons. cbn [fst].
  destruct (decide (n = name)) as [->|Hn]; cbn [column];
    destruct (decide _); congruence.
Qed.

Lemma setitem_index (df : DataFrame) name v : index (pd.setitem df name v) = index df.
Proof. unfold pd.setitem. by case_decide. Qed.

Lemma setitem_column_eq (df : DataFrame) name v :
  column name (columns (pd.setitem df name v)) = Some (replicate (nrows df) v).
Proof.
  unfold pd.setitem. case_decide as Hin; cbn [columns].
  - by apply column_overwrite_eq.
  - rewrite column_app_fresh by done. cbn. by rewrite decide_True.
Qed.

Lemma setitem_column_ne (df : DataFrame) name name' v :
  name ≠ name' →
  column name' (columns (pd.setitem df name v)) = column name' (columns df).
Proof.
  intros Hne. unfold pd.setitem. case_decide; cbn [columns].
  - by apply column_overwrite_ne.
  - by apply column_app_other.
Qed.

(** X11: [get_metrics] calls the aggregator for the discrete family first
    and, only when that call returns, for the continuous family, on the
    generator as the first call left it; an error of either call, or of
    putting the two tables side by side, is the error of [get_metrics]; when
    all three return, every row of the result holds the key in [dataset],
    the model name in [model] and the parameter count in [params], also
    when a metric column has one of these names, and the generator is left
    as the second call left it. *)
Theorem get_metrics_metadata (eval_average_metrics_wstd : Aggregator)
  (args : Args) (key : string) (loader : DataLoader) (model : Model)
  (max_mbs : Z) (w : World) :
  match eval_average_metrics_wstd loader get_discrete_metrics model max_mbs (rng w)
  with
  | Raise e =>
      get_metrics eval_average_metrics_wstd args key loader model max_mbs w
      = Raise e
  | Ok (discrete_metrics, g1) =>
      match eval_average_metrics_wstd loader get_lee_metrics model max_mbs g1 with
      | Raise e =>
          get_metrics eval_average_metrics_wstd args key loader model max_mbs w
          = Raise e
      | Ok (lee_metrics, g2) =>
          match pd.concat_columns [lee_metrics; discrete_metrics] with
          | Raise e =>
              get_metrics eval_average_metrics_wstd args key loader model
                max_mbs w
              = Raise e
          | Ok merged =>
              ∃ metrics,
                get_metrics eval_average_metrics_wstd args key loader model
                  max_mbs w
                = Ok (metrics,
                      mkWorld g2
                        (eval_log w ++ [(loader, get_discrete_metrics);
                                        (loader, get_lee_metrics)])) ∧
                index metrics = index merged ∧
                column "dataset" (columns metrics)
                = Some (replicate (nrows merged) (Str key)) ∧
                column "model" (columns metrics)
                = Some (replicate (nrows merged) (Str (modelname args))) ∧
                column "params" (columns metrics)
                = Some (replicate (nrows merged)
                          (Int (Z.of_nat (numparams model))))
          end
      end
  end.
Proof.
  unfold get_metrics, bind, call_aggregator, lift_result, ret.
  destruct (eval_average_metrics_wstd loader get_discrete_metrics model max_mbs
              (rng w)) as [[discrete_metrics g1]|e]; [|done].
  cbn [rng eval_log].
  destruct (eval_average_metrics_wstd loader get_lee_metrics model max_mbs g1)
    as [[lee_metrics g2]|e]; [|done].
  destruct (pd.concat_columns _) as [merged|e]; [|done].
  eexists. split; [by rewrite <- app_assoc|].
  unfold nrows. rewrite !setitem_index. split; [done|].
  rewrite !setitem_column_ne by done. rewrite setitem_column_eq.
  rewrite setitem_column_ne by done. rewrite setitem_column_eq.
  rewrite setitem_column_eq. unfold nrows. by rewrite !setitem_index.
Qed.

(** X12: a metric column called [dataset] is overwritten by the key instead
    of a new column being added: the result then has M + N + 2 columns. *)
Theorem get_metrics_name_collision (eval_average_metrics_wstd : Aggregator)
  (args : Args) (key : string) (loader : DataLoader) (model : Model)
  (max_mbs : Z) (w : World) (discrete_metrics lee_metrics : DataFrame)
  (g' : np.random.RandomState) :
  aggregator_returns eval_average_metrics_wstd loader model max_mbs (rng w)
    discrete_metrics lee_metrics g' →
  index discrete_metrics = index lee_metrics →
  "dataset" ∈ names lee_metrics ++ names discrete_metrics →
  "model" ∉ names lee_metrics ++ names discrete_metrics →
  "params" ∉ names lee_metrics ++ names discrete_metrics →
  ∃ metrics w',
    get_metrics eval_average_metrics_wstd args key loader model max_mbs w
    = Ok (metrics, w') ∧
    names metrics
    = names lee_metrics ++ names discrete_metrics ++ ["model"; "params"] ∧
    length (columns metrics)
    = (length (columns lee_metrics) + length (columns discrete_metrics) + 2)%nat ∧
    column "dataset" (columns metrics)
    = Some (replicate (nrows lee_metrics) (Str key)).
Proof.
  intros Hret Hidx Hd Hm Hp.
  set (lee := lee_metrics) in *. set (disc := discrete_metrics) in *.
  eexists _, _.
  split; [exact (get_metrics_run eval_average_metrics_wstd args model key loader
                   max_mbs w _ _ _ _ Hret (concat_columns_aligned _ _ Hidx))|].
  set (merged := mkDataFrame (index lee) (columns lee ++ columns disc)).
  assert (Hnames : names (pd.setitem merged "dataset" (Str key))
                   = names lee ++ names disc).
  { assert (Hmerged : names merged = names lee ++ names disc)
      by (unfold names, merged; cbn [columns]; by rewrite fmap_app).
    unfold pd.setitem. rewrite decide_True by (by rewrite Hmerged).
    rewrite <- Hmerged. unfold names. cbn [columns].
    rewrite <- list_fmap_compose. apply list_fmap_ext.
    intros _ c _. cbn. by case_decide. }
  assert (Hnames2 : names (pd.setitem (pd.setitem merged "dataset" (Str key))
                             "model" (Str (modelname args)))
                    = names lee ++ names disc ++ ["model"]).
  { rewrite setitem_fresh by (by rewrite Hnames).
    unfold names in *. cbn [columns]. by rewrite fmap_app, Hnames, <- app_assoc. }
  assert (Hnames3 : names (pd.setitem (pd.setitem (pd.setitem merged "dataset" (Str key))
                             "model" (Str (modelname args)))
                             "params" (Int (Z.of_nat (numparams model))))
                    = names lee ++ names disc ++ ["model"; "params"]).
  { rewrite setitem_fresh.
    - unfold names in *. cbn [columns]. rewrite fmap_app, Hnames2.
      by rewrite <- !app_assoc.
    - rewrite Hnames2, app_assoc, not_elem_of_app. split; [done|].
      by apply (bool_decide_unpack _). }
  split; [done|]. split.
  - apply (f_equal length) in Hnames3. unfold names in Hnames3.
    rewrite !length_app, !length_fmap in Hnames3. cbn in Hnames3. lia.
  - rewrite !setitem_column_ne by done. by rewrite setitem_column_eq.
Qed.

Lemma get_metrics_name_collision_witness :
  ∃ metrics w',
    get_metrics colliding_aggregator scenario_args "train"
      (scenario_loader population_3_2) scenario_model 400 world0
    = Ok (metrics, w') ∧
    names metrics = ["dataset"] ++ ["disc_x"] ++ ["model"; "params"] ∧
    length (columns metrics) = (1 + 1 + 2)%nat ∧
    column "dataset" (columns metrics) = Some (replicate 1 (Str "train")).
Proof.
  apply (get_metrics_name_collision colliding_aggregator scenario_args "train"
           (scenario_loader population_3_2) scenario_model 400 world0
           (mkDataFrame [0%Z] [("disc_x", [Float 0.125%float])])
           (mkDataFrame [0%Z] [("dataset", [Float 0.5%float])]) rng0).
  - eexists. split; reflexivity.
  - reflexivity.
  - by apply (bool_decide_unpack _).
  - by apply (bool_decide_unpack _).
  - by apply (bool_decide_unpack _).
Defined.

(** X13: when the two one-row tables of the aggregator carry different row
    labels, the columns are joined on the union of the labels and
    [get_metrics] returns two rows instead of one, one per label, both
    stamped with the key. *)
Theorem get_metrics_misaligned (eval_average_metrics_wstd : Aggregator)
  (args : Args) (key : string) (loader : DataLoader) (model : Model)
  (max_mbs : Z) (w : World) (discrete_metrics lee_metrics : DataFrame)
  (g' : np.random.RandomState) (r1 r2 : Z) :
  aggregator_returns eval_average_metrics_wstd loader model max_mbs (rng w)
    discrete_metrics lee_metrics g' →
  index lee_metrics = [r1] →
  index discrete_metrics = [r2] →
  r1 ≠ r2 →
  ∃ metrics w',
    get_metrics eval_average_metrics_wstd args key loader model max_mbs w
    = Ok (metrics, w') ∧
    index metrics ≡ₚ [r1; r2] ∧
    nrows metrics = 2%nat ∧
    column "dataset" (columns metrics) = Some [Str key; Str key].
Proof.
  intros Hret Hl Hd Hne.
  set (lee := lee_metrics) in *. set (disc := discrete_metrics) in *.
  assert (Hm : pd.concat_columns [lee; disc]
               = Ok (mkDataFrame [r1; r2] ([lee; disc] ≫= pd.reindex [r1; r2]))).
  { unfold pd.concat_columns.
    rewrite decide_False.
    2:{ intros [Heq _]%Forall_cons. rewrite Hl, Hd in Heq. congruence. }
    rewrite decide_True.
    2:{ repeat apply Forall_cons_2; [rewrite Hl|rewrite Hd|constructor];
        apply NoDup_singleton. }
    unfold pd.union. cbn [fmap list_fmap foldl app]. rewrite Hl, Hd.
    rewrite (filter_cons_True _ r1) by apply not_elem_of_nil.
    rewrite filter_nil. cbn [app].
    rewrite (filter_cons_True _ r2)
      by (apply not_elem_of_cons; split; [congruence|apply not_elem_of_nil]).
    by rewrite filter_nil. }
  eexists _, _.
  split; [exact (get_metrics_run eval_average_metrics_wstd args model key loader
                   max_mbs w _ _ _ _ Hret Hm)|].
  unfold nrows. rewrite !setitem_index. cbn [index length].
  split; [done|]. split; [done|].
  rewrite !setitem_column_ne by done. by rewrite setitem_column_eq.
Qed.

Lemma get_metrics_misaligned_witness :
  ∃ metrics w',
    get_metrics misaligned_aggregator scenario_args "train"
      (scenario_loader population_3_2) scenario_model 400 world0
    = Ok (metrics, w') ∧
    index metrics ≡ₚ [0%Z; 1%Z] ∧
    nrows metrics = 2%nat ∧
    column "dataset" (columns metrics) = Some [Str "train"; Str "train"].
Proof.
  apply (get_metrics_misaligned misaligned_aggregator scenario_args "train"
           (scenario_loader population_3_2) scenario_model 400 world0
           (mkDataFrame [1%Z] [("disc_x", [Float 0.125%float])])
           (mkDataFrame [0%Z] [("lee_a", [Float 0.5%float])]) rng0 0 1).
  - eexists. split; reflexivity.
  - reflexivity.
  - reflexivity.
  - discriminate.
Defined.

(** ** [main]: the populations behind the loaders *)

Lemma bind_Raise {S A B} (m : M S A) (k : A → M S B) s e :
  m s = Raise e → bind m k s = Raise e.
Proof. intros Hm. unfold bind. by rewrite Hm. Qed.

Lemma lift_result_Raise {S A} (r : result A) (s : S) e :
  r = Raise e → lift_result r s = Raise e.
Proof. by intros ->. Qed.

Lemma subsample_step_spec (config : Config) (crops : list CellCrop) (w : World) :
  match size_data config with Some size => (0 < size)%Z | None => True end →
  ∃ out w',
    match size_data config with
    | Some size => with_rng (subsample_const_size crops size)
    | None => ret crops
    end w = Ok (out, w') ∧
    eval_log w' = eval_log w ∧
    (size_data config = None → out = crops ∧ w' = w) ∧
    out ⊆+ crops ∧
    (∀ lbl, (0 < count_label lbl crops)%nat → (0 < count_label lbl out)%nat).
Proof.
  destruct (size_data config) as [size|]; intros Hsize.
  - destruct (subsample_run crops size (rng w)
                (or_introl (Z.lt_le_incl _ _ Hsize)))
      as (groups & g' & Hrun & Hok).
    exists (gathered crops groups), (mkWorld g' (eval_log w)).
    unfold with_rng. rewrite Hrun. split; [done|]. split; [done|].
    split; [done|]. split.
    + rewrite gathered_fmap. apply lookup_total_submseteq.
      * eapply group_indices_NoDup; [apply unique_NoDup|exact Hok].
      * apply Forall_forall. intros i Hi.
        destruct (group_indices_labelled _ _ _ _ _ Hok Hi) as (l & _ & Hl).
        apply lookup_lt_Some in Hl. by rewrite length_fmap in Hl.
    + intros lbl Hpos.
      rewrite (count_label_gathered _ _ _ _ lbl (unique_NoDup _) Hok).
      rewrite decide_True; [lia|].
      apply unique_elem. rewrite <- count_label_labels in Hpos.
      destruct (filter (λ x, x = lbl) (_label <$> crops)) as [|x xs] eqn:Hf;
        [simpl in Hpos; lia|].
      assert (Hx : x ∈ filter (λ x, x = lbl) (_label <$> crops))
        by (rewrite Hf; by left).
      by apply list_elem_of_filter in Hx as [-> ?].
  - exists crops, w. unfold ret. by repeat split.
Qed.

Lemma filter_nonempty_count (crops : list CellCrop) :
  crops ≠ [] → ∃ lbl, (0 < count_label lbl crops)%nat.
Proof.
  destruct crops as [|c crops]; [done|]. intros _. exists (_label c).
  unfold count_label. rewrite filter_cons_True by done. simpl. lia.
Qed.

Lemma count_label_pos_elem (lbl : Z) (crops : list CellCrop) :
  (0 < count_label lbl crops)%nat → ∃ c, c ∈ crops ∧ _label c = lbl.
Proof.
  unfold count_label. intros Hpos.
  destruct (filter (λ c, _label c = lbl) crops) as [|c cs] eqn:Hf;
    [simpl in Hpos; lia|].
  assert (Hc : c ∈ filter (λ c, _label c = lbl) crops) by (rewrite Hf; by left).
  apply list_elem_of_filter in Hc as [? ?]. eauto.
Qed.

Lemma main_success (eval_average_metrics_wstd : Aggregator) (args : Args)
  (config : Config) (loaded_train_crops loaded_val_crops : list CellCrop)
  (model : Model) (w : World) :
  filter (λ c, (0 ≤ _label c)%Z) loaded_train_crops ≠ [] →
  match size_data config with Some size => (0 < size)%Z | None => True end →
  match hierarchy_match config with
  | Some m =>
      ∀ c, c ∈ loaded_train_crops → (0 ≤ _label c)%Z →
           is_Some (m !! str (_label c))
  | None => True
  end →
  (0 < cfg_batch_size config)%Z →
  (0 ≤ cfg_num_workers config)%Z →
  (∀ loader, aggregator_ok eval_average_metrics_wstd loader model 400) →
  ∃ locals w' g0 discrete_train lee_train g discrete_val lee_val,
    main eval_average_metrics_wstd args config loaded_train_crops
      loaded_val_crops model w = Ok (locals, w') ∧
    dataset_crops (dataset (train_loader locals))
      ⊆+ filter (λ c, (0 ≤ _label c)%Z) loaded_train_crops ∧
    dataset_crops (dataset (train_loader_for_eval locals))
    = dataset_crops (dataset (train_loader locals)) ∧
    dataset_crops (dataset (val_loader locals))
      ⊆+ filter (λ c, (0 ≤ _label c)%Z) loaded_val_crops ∧
    (size_data config = None →
     g0 = rng w ∧
     dataset_crops (dataset (train_loader locals))
     = filter (λ c, (0 ≤ _label c)%Z) loaded_train_crops ∧
     dataset_crops (dataset (val_loader locals))
     = filter (λ c, (0 ≤ _label c)%Z) loaded_val_crops) ∧
    aggregator_returns eval_average_metrics_wstd (train_loader locals) model 400
      g0 discrete_train lee_train g ∧
    aggregator_returns eval_average_metrics_wstd (val_loader locals) model 400
      g discrete_val lee_val (rng w') ∧
    evaluated_metrics locals
    = [merged_row args model "Imagenet_train" lee_train discrete_train;
       merged_row args model "Imagenet_test" lee_val discrete_val].
Proof.
  intros Hne Hsize Hmap Hbs Hnw Hagg.
  destruct (subsample_step_spec config
              (filter (λ c, (0 ≤ _label c)%Z) loaded_train_crops) w Hsize)
    as (tc & w1 & Hrun1 & _ & Hnone1 & Hsub1 & Hpos1).
  destruct (subsample_step_spec config
              (filter (λ c, (0 ≤ _label c)%Z) loaded_val_crops) w1 Hsize)
    as (vc & w2 & Hrun2 & _ & Hnone2 & Hsub2 & _).
  assert (Htc : tc ≠ []).
  { destruct (filter_nonempty_count _ Hne) as [lbl Hlbl].
    apply Hpos1 in Hlbl. intros ->. unfold count_label in Hlbl.
    simpl in Hlbl. lia. }
  destruct (categories_ok tc (hierarchy_match config)) as [cats Hcats].
  { destruct (hierarchy_match config) as [m|]; [|done].
    intros c Hc. eapply elem_of_submseteq in Hc; [|exact Hsub1].
    apply list_elem_of_filter in Hc as [? ?]. by apply Hmap. }
  pose proof (define_sampler_spec (R := float) tc _ cats Hcats Htc) as Hsampler.
  destruct (main_run eval_average_metrics_wstd args config loaded_train_crops
              loaded_val_crops model w w1 w2 tc vc _ Hrun1 Hrun2 Hsampler
              Hbs Hnw Hagg)
    as (locals & w' & disc1 & lee1 & g & disc2 & lee2 & Hmain & Htl & Htle & Hvl
        & _ & Hret1 & Hret2 & Hrows & _).
  exists locals, w', (rng w2), disc1, lee1, g, disc2, lee2. split; [exact Hmain|].
  rewrite Htl, Htle, Hvl in *. cbn [dataset dataset_crops].
  split; [done|]. split; [done|]. split; [done|]. split; [|done].
  intros Hsd. destruct (Hnone1 Hsd) as [-> ->]. destruct (Hnone2 Hsd) as [-> ->].
  done.
Qed.

(** X14: in a run that succeeds (a positive batch size and a number of
    workers that is not negative among the conditions) the crops of the
    training loader (and of the training loader for evaluation, which holds
    the same crops) are loaded training crops with a label that is not
    negative, each at most as often as it was loaded, and the crops of the
    validation loader are loaded validation crops in the same way: crops
    with a negative label and crops of the other split never reach a
    loader. *)
Theorem main_populations (eval_average_metrics_wstd : Aggregator) (args : Args)
  (config : Config) (loaded_train_crops loaded_val_crops : list CellCrop)
  (model : Model) (w : World) :
  filter (λ c, (0 ≤ _label c)%Z) loaded_train_crops ≠ [] →
  match size_data config with Some size => (0 < size)%Z | None => True end →
  match hierarchy_match config with
  | Some m =>
      ∀ c, c ∈ loaded_train_crops → (0 ≤ _label c)%Z →
           is_Some (m !! str (_label c))
  | None => True
  end →
  (0 < cfg_batch_size config)%Z →
  (0 ≤ cfg_num_workers config)%Z →
  (∀ loader, aggregator_ok eval_average_metrics_wstd loader model 400) →
  ∃ locals w',
    main eval_average_metrics_wstd args config loaded_train_crops
      loaded_val_crops model w = Ok (locals, w') ∧
    dataset_crops (dataset (train_loader locals)) ⊆+ loaded_train_crops ∧
    dataset_crops (dataset (train_loader_for_eval locals))
    = dataset_crops (dataset (train_loader locals)) ∧
    dataset_crops (dataset (val_loader locals)) ⊆+ loaded_val_crops ∧
    Forall (λ c, (0 ≤ _label c)%Z)
      (dataset_crops (dataset (train_loader locals))
       ++ dataset_crops (dataset (val_loader locals))).
Proof.
  intros Hne Hsize Hmap Hbs Hnw Hagg.
  destruct (main_success eval_average_metrics_wstd args config loaded_train_crops
              loaded_val_crops model w Hne Hsize Hmap Hbs Hnw Hagg)
    as (locals & w' & g0 & d1 & l1 & g & d2 & l2 & Hmain & Htl & Htle & Hvl & _).
  exists locals, w'. split; [done|].
  split; [etransitivity; [exact Htl|apply sublist_submseteq, sublist_filter]|].
  split; [done|].
  split; [etransitivity; [exact Hvl|apply sublist_submseteq, sublist_filter]|].
  apply Forall_app. split; apply Forall_forall; intros c Hc.
  - eapply elem_of_submseteq in Hc; [|exact Htl].
    by apply list_elem_of_filter in Hc as [? _].
  - eapply elem_of_submseteq in Hc; [|exact Hvl].
    by apply list_elem_of_filter in Hc as [? _].
Qed.

Lemma main_populations_witness :
  ∃ locals w',
    main scenario_aggregator scenario_args scenario_config
      (mkCrop (-1) 9 :: population_3_2) population_11_4 scenario_model world0
    = Ok (locals, w') ∧
    dataset_crops (dataset (train_loader locals))
      ⊆+ mkCrop (-1) 9 :: population_3_2 ∧
    dataset_crops (dataset (train_loader_for_eval locals))
    = dataset_crops (dataset (train_loader locals)) ∧
    dataset_crops (dataset (val_loader locals)) ⊆+ population_11_4 ∧
    Forall (λ c, (0 ≤ _label c)%Z)
      (dataset_crops (dataset (train_loader locals))
       ++ dataset_crops (dataset (val_loader locals))).
Proof.
  apply (main_populations scenario_aggregator scenario_args scenario_config
           (mkCrop (-1) 9 :: population_3_2) population_11_4 scenario_model
           world0).
  - vm_compute. discriminate.
  - simpl. lia.
  - simpl. exact I.
  - simpl. lia.
  - simpl. lia.
  - intros loader. apply scenario_aggregator_ok.
Defined.

(** X15: without [size_data], in a run that succeeds, [main] itself draws
    nothing and keeps every crop: the loaders hold exactly the loaded crops
    with a label that is not negative, in their original order; the first
    call of the aggregator (the training loader) starts from the generator
    as [main] found it, the calls for the validation loader start from the
    generator the calls for the training loader left, and the generator
    after the run is the one the last call left. *)
Theorem main_without_size_data (eval_average_metrics_wstd : Aggregator)
  (args : Args) (config : Config)
  (loaded_train_crops loaded_val_crops : list CellCrop)
  (model : Model) (w : World) :
  size_data config = None →
  filter (λ c, (0 ≤ _label c)%Z) loaded_train_crops ≠ [] →
  match hierarchy_match config with
  | Some m =>
      ∀ c, c ∈ loaded_train_crops → (0 ≤ _label c)%Z →
           is_Some (m !! str (_label c))
  | None => True
  end →
  (0 < cfg_batch_size config)%Z →
  (0 ≤ cfg_num_workers config)%Z →
  (∀ loader, aggregator_ok eval_average_metrics_wstd loader model 400) →
  ∃ locals w' discrete_train lee_train g discrete_val lee_val,
    main eval_average_metrics_wstd args config loaded_train_crops
      loaded_val_crops model w = Ok (locals, w') ∧
    dataset_crops (dataset (train_loader locals))
    = filter (λ c, (0 ≤ _label c)%Z) loaded_train_crops ∧
    dataset_crops (dataset (train_loader_for_eval locals))
    = filter (λ c, (0 ≤ _label c)%Z) loaded_train_crops ∧
    dataset_crops (dataset (val_loader locals))
    = filter (λ c, (0 ≤ _label c)%Z) loaded_val_crops ∧
    aggregator_returns eval_average_metrics_wstd (train_loader locals) model 400
      (rng w) discrete_train lee_train g ∧
    aggregator_returns eval_average_metrics_wstd (val_loader locals) model 400
      g discrete_val lee_val (rng w') ∧
    evaluated_metrics locals
    = [merged_row args model "Imagenet_train" lee_train discrete_train;
       merged_row args model "Imagenet_test" lee_val discrete_val].
Proof.
  intros Hsd Hne Hmap Hbs Hnw Hagg.
  assert (Hsize : match size_data config with
                  | Some size => (0 < size)%Z | None => True end)
    by (by rewrite Hsd).
  destruct (main_success eval_average_metrics_wstd args config loaded_train_crops
              loaded_val_crops model w Hne Hsize Hmap Hbs Hnw Hagg)
    as (locals & w' & g0 & d1 & l1 & g & d2 & l2 & Hmain & _ & Htle & _ & Hnone
        & Hret1 & Hret2 & Hrows).
  destruct (Hnone Hsd) as (-> & Htl & Hvl).
  exists locals, w', d1, l1, g, d2, l2. by rewrite Htle, Htl, Hvl.
Qed.

Lemma main_without_size_data_witness :
  ∃ locals w' discrete_train lee_train g discrete_val lee_val,
    main scenario_aggregator scenario_args
      (mkConfig 8 0 false (Some hierarchy_both) None None (Some false))
      (mkCrop (-1) 9 :: population_3_2) population_11_4 scenario_model world0
    = Ok (locals, w') ∧
    dataset_crops (dataset (train_loader locals))
    = filter (λ c, (0 ≤ _label c)%Z) (mkCrop (-1) 9 :: population_3_2) ∧
    dataset_crops (dataset (train_loader_for_eval locals))
    = filter (λ c, (0 ≤ _label c)%Z) (mkCrop (-1) 9 :: population_3_2) ∧
    dataset_crops (dataset (val_loader locals))
    = filter (λ c, (0 ≤ _label c)%Z) population_11_4 ∧
    aggregator_returns scenario_aggregator (train_loader locals) scenario_model
      400 (rng world0) discrete_train lee_train g ∧
    aggregator_returns scenario_aggregator (val_loader locals) scenario_model
      400 g discrete_val lee_val (rng w') ∧
    evaluated_metrics locals
    = [merged_row scenario_args scenario_model "Imagenet_train" lee_train
         discrete_train;
       merged_row scenario_args scenario_model "Imagenet_test" lee_val
         discrete_val].
Proof.
  apply (main_without_size_data scenario_aggregator scenario_args
           (mkConfig 8 0 false (Some hierarchy_both) None None (Some false))
           (mkCrop (-1) 9 :: population_3_2) population_11_4 scenario_model
           world0).
  - reflexivity.
  - vm_compute. discriminate.
  - cbn [hierarchy_match]. intros c Hc Hlabel.
    assert (Hall : Forall (λ c, (0 ≤ _label c)%Z →
                           is_Some (hierarchy_both !! str (_label c)))
                     (mkCrop (-1) 9 :: population_3_2))
      by (by apply (bool_decide_unpack _)).
    rewrite Forall_forall in Hall. by apply Hall.
  - simpl. lia.
  - simpl. lia.
  - intros loader. apply scenario_aggregator_ok.
Defined.

(** ** [main]: failures *)

Lemma main_raise_train (eval_average_metrics_wstd : Aggregator) (args : Args)
  (config : Config) (loaded_train_crops loaded_val_crops : list CellCrop)
  (model : Model) (w : World) e :
  match size_data config with
  | Some size =>
      with_rng (subsample_const_size
                  (filter (λ c, (0 ≤ _label c)%Z) loaded_train_crops) size)
  | None => ret (filter (λ c, (0 ≤ _label c)%Z) loaded_train_crops)
  end w = Raise e →
  main eval_average_metrics_wstd args config loaded_train_crops
    loaded_val_crops model w = Raise e.
Proof. intros Hrun. unfold main. cbv zeta. by rewrite (bind_Raise _ _ _ _ Hrun). Qed.

Lemma main_raise_val (eval_average_metrics_wstd : Aggregator) (args : Args)
  (config : Config) (loaded_train_crops loaded_val_crops : list CellCrop)
  (model : Model) (w w1 : World) train_crops e :
  match size_data config with
  | Some size =>
      with_rng (subsample_const_size
                  (filter (λ c, (0 ≤ _label c)%Z) loaded_train_crops) size)
  | None => ret (filter (λ c, (0 ≤ _label c)%Z) loaded_train_crops)
  end w = Ok (train_crops, w1) →
  match size_data config with
  | Some size =>
      with_rng (subsample_const_size
                  (filter (λ c, (0 ≤ _label c)%Z) loaded_val_crops) size)
  | None => ret (filter (λ c, (0 ≤ _label c)%Z) loaded_val_crops)
  end w1 = Raise e →
  main eval_average_metrics_wstd args config loaded_train_crops
    loaded_val_crops model w = Raise e.
Proof.
  intros Hrun1 Hrun2. unfold main. cbv zeta.
  rewrite (bind_Ok _ _ _ _ _ Hrun1). cbv beta.
  by rewrite (bind_Raise _ _ _ _ Hrun2).
Qed.

Lemma main_raise_sampler (eval_average_metrics_wstd : Aggregator) (args : Args)
  (config : Config) (loaded_train_crops loaded_val_crops : list CellCrop)
  (model : Model) (w w1 w2 : World) train_crops val_crops e :
  match size_data config with
  | Some size =>
      with_rng (subsample_const_size
                  (filter (λ c, (0 ≤ _label c)%Z) loaded_train_crops) size)
  | None => ret (filter (λ c, (0 ≤ _label c)%Z) loaded_train_crops)
  end w = Ok (train_crops, w1) →
  match size_data config with
  | Some size =>
      with_rng (subsample_const_size
                  (filter (λ c, (0 ≤ _label c)%Z) loaded_val_crops) size)
  | None => ret (filter (λ c, (0 ≤ _label c)%Z) loaded_val_crops)
  end w1 = Ok (val_crops, w2) →
  define_sampler (R := float) train_crops (hierarchy_match config) = Raise e →
  main eval_average_metrics_wstd args config loaded_train_crops
    loaded_val_crops model w = Raise e.
Proof.
  intros Hrun1 Hrun2 Hs. unfold main. cbv zeta.
  rewrite (bind_Ok _ _ _ _ _ Hrun1). cbv beta.
  rewrite (bind_Ok _ _ _ _ _ Hrun2). cbv beta.
  by rewrite (bind_Raise _ _ _ _ (lift_result_Raise _ w2 _ Hs)).
Qed.

(** The subsampling step of [main] returns, or raises a value error. *)
Lemma subsample_step_outcome (sd : option Z) (crops : list CellCrop) (w : World) :
  (∃ out w',
     match sd with
     | Some size => with_rng (subsample_const_size crops size)
     | None => ret crops
     end w = Ok (out, w') ∧
     (crops = [] ∨ sd = Some 0%Z → out = [])) ∨
  (∃ msg,
     match sd with
     | Some size => with_rng (subsample_const_size crops size)
     | None => ret crops
     end w = Raise (ValueError msg)).
Proof.
  destruct sd as [size|].
  - destruct (decide ((0 ≤ size)%Z ∨ crops = [])) as [Hdom|Hdom].
    + left. destruct (subsample_run crops size (rng w) Hdom)
        as (groups & g' & Hrun & Hok).
      eexists _, _. unfold with_rng. rewrite Hrun. split; [done|].
      intros [->|[= ->]].
      * inversion Hok. done.
      * by eapply gathered_nil.
    + right. eexists. unfold with_rng.
      rewrite subsample_negative; [done| |].
      * intros ?. apply Hdom. by right.
      * apply Z.nle_gt. intros ?. apply Hdom. by left.
  - left. exists crops, w. split; [done|]. by intros [->|?].
Qed.

(** X16: when no loaded training crop has a label that is not negative, or
    when [size_data] is 0, [main] raises a value error: the sampler rejects
    the empty training population (or, before that, the draw on the
    validation crops rejects a negative size). *)
Theorem main_empty_population (eval_average_metrics_wstd : Aggregator)
  (args : Args) (config : Config)
  (loaded_train_crops loaded_val_crops : list CellCrop)
  (model : Model) (w : World) :
  filter (λ c, (0 ≤ _label c)%Z) loaded_train_crops = []
  ∨ size_data config = Some 0%Z →
  ∃ msg,
    main eval_average_metrics_wstd args config loaded_train_crops
      loaded_val_crops model w = Raise (ValueError msg).
Proof.
  intros Hempty.
  destruct (subsample_step_outcome (size_data config)
              (filter (λ c, (0 ≤ _label c)%Z) loaded_train_crops) w)
    as [(tc & w1 & Hrun1 & Htc)|[msg Hrun1]].
  2:{ exists msg. by apply main_raise_train. }
  rewrite (Htc Hempty) in Hrun1.
  destruct (subsample_step_outcome (size_data config)
              (filter (λ c, (0 ≤ _label c)%Z) loaded_val_crops) w1)
    as [(vc & w2 & Hrun2 & _)|[msg Hrun2]].
  2:{ exists msg. by eapply main_raise_val. }
  eexists. eapply main_raise_sampler; [exact Hrun1|exact Hrun2|].
  apply define_sampler_empty.
Qed.

Lemma main_empty_population_witness :
  ∃ msg,
    main scenario_aggregator scenario_args
      (mkConfig 8 0 true None (Some 0%Z) None None)
      population_3_2 population_11_4 scenario_model world0
    = Raise (ValueError msg).
Proof.
  apply (main_empty_population scenario_aggregator scenario_args
           (mkConfig 8 0 true None (Some 0%Z) None None)
           population_3_2 population_11_4 scenario_model world0).
  right. reflexivity.
Defined.

(** X17: a negative [size_data] with at least one loaded training crop of a
    label that is not negative makes [main] raise the error of the draw. *)
Theorem main_negative_size (eval_average_metrics_wstd : Aggregator)
  (args : Args) (config : Config)
  (loaded_train_crops loaded_val_crops : list CellCrop)
  (model : Model) (w : World) (size : Z) :
  size_data config = Some size → (size < 0)%Z →
  filter (λ c, (0 ≤ _label c)%Z) loaded_train_crops ≠ [] →
  main eval_average_metrics_wstd args config loaded_train_crops
    loaded_val_crops model w
  = Raise (ValueError "negative dimensions are not allowed").
Proof.
  intros Hsd Hneg Hne. apply main_raise_train. rewrite Hsd. unfold with_rng.
  by rewrite subsample_negative.
Qed.

Lemma main_negative_size_witness :
  main scenario_aggregator scenario_args
    (mkConfig 8 0 true None (Some (-2)%Z) None None)
    population_3_2 population_11_4 scenario_model world0
  = Raise (ValueError "negative dimensions are not allowed").
Proof.
  apply (main_negative_size scenario_aggregator scenario_args
           (mkConfig 8 0 true None (Some (-2)%Z) None None)
           population_3_2 population_11_4 scenario_model world0 (-2)).
  - reflexivity.
  - lia.
  - vm_compute. discriminate.
Defined.

(** X18: when the category map lacks the label of a loaded training crop
    whose label is not negative, [main] raises the key error, also after
    subsampling with a positive size (every class keeps at least one
    crop). *)
Theorem main_missing_category (eval_average_metrics_wstd : Aggregator)
  (args : Args) (config : Config)
  (loaded_train_crops loaded_val_crops : list CellCrop)
  (model : Model) (w : World) (m : gmap string Z) (c : CellCrop) :
  hierarchy_match config = Some m →
  c ∈ loaded_train_crops → (0 ≤ _label c)%Z → m !! str (_label c) = None →
  match size_data config with Some size => (0 < size)%Z | None => True end →
  ∃ k,
    main eval_average_metrics_wstd args config loaded_train_crops
      loaded_val_crops model w = Raise (KeyError k).
Proof.
  intros Hhm Hc Hlabel Hnone Hsize.
  destruct (subsample_step_spec config
              (filter (λ c, (0 ≤ _label c)%Z) loaded_train_crops) w Hsize)
    as (tc & w1 & Hrun1 & _ & _ & _ & Hpos1).
  destruct (subsample_step_spec config
              (filter (λ c, (0 ≤ _label c)%Z) loaded_val_crops) w1 Hsize)
    as (vc & w2 & Hrun2 & _).
  destruct (count_label_pos_elem (_label c) tc) as (c' & Hc' & Hl').
  { apply Hpos1. unfold count_label.
    assert (Hin : c ∈ filter (λ x, _label x = _label c)
                        (filter (λ c, (0 ≤ _label c)%Z) loaded_train_crops))
      by (apply list_elem_of_filter; split; [done|by apply list_elem_of_filter]).
    destruct (filter (λ x, _label x = _label c) _);
      [by apply elem_of_nil in Hin|].
    simpl. lia. }
  destruct (map_labels_missing m (_label <$> tc) (_label c)) as [k Hk];
    [rewrite <- Hl'; by apply list_elem_of_fmap_2|done|].
  exists k. eapply main_raise_sampler; [exact Hrun1|exact Hrun2|].
  rewrite Hhm. unfold define_sampler.
  by rewrite (samples_weight_raise tc (Some m) _ Hk).
Qed.

Lemma main_missing_category_witness :
  ∃ k,
    main scenario_aggregator scenario_args
      (mkConfig 8 0 true (Some hierarchy_only_0) (Some 2%Z) None None)
      population_3_2 population_11_4 scenario_model world0
    = Raise (KeyError k).
Proof.
  apply (main_missing_category scenario_aggregator scenario_args
           (mkConfig 8 0 true (Some hierarchy_only_0) (Some 2%Z) None None)
           population_3_2 population_11_4 scenario_model world0
           hierarchy_only_0 (mkCrop 1 3)).
  - reflexivity.
  - by apply (bool_decide_unpack _).
  - simpl. lia.
  - by vm_compute.
  - simpl. lia.
Defined.

(** ** [main]: a configuration the loaders reject *)

Lemma new_DataLoader_Raise (ds : CellCropsDataset) (bs nw : Z)
  (smp : option (WeightedRandomSampler float)) (sh : bool) :
  (bs ≤ 0)%Z ∨ (nw < 0)%Z →
  ∃ msg, new_DataLoader ds bs nw smp sh = Raise (ValueError msg).
Proof.
  intros Hbad. unfold new_DataLoader.
  destruct (decide (nw < 0)%Z); [by eexists|].
  destruct (bool_decide (is_Some smp) && sh); [by eexists|].
  rewrite decide_True by lia. by eexists.
Qed.

Lemma main_raise_loader (eval_average_metrics_wstd : Aggregator) (args : Args)
  (config : Config) (loaded_train_crops loaded_val_crops : list CellCrop)
  (model : Model) (w w1 w2 : World) train_crops val_crops smp e :
  match size_data config with
  | Some size =>
      with_rng (subsample_const_size
                  (filter (λ c, (0 ≤ _label c)%Z) loaded_train_crops) size)
  | None => ret (filter (λ c, (0 ≤ _label c)%Z) loaded_train_crops)
  end w = Ok (train_crops, w1) →
  match size_data config with
  | Some size =>
      with_rng (subsample_const_size
                  (filter (λ c, (0 ≤ _label c)%Z) loaded_val_crops) size)
  | None => ret (filter (λ c, (0 ≤ _label c)%Z) loaded_val_crops)
  end w1 = Ok (val_crops, w2) →
  define_sampler (R := float) train_crops (hierarchy_match config) = Ok smp →
  new_DataLoader
    (mkDataset train_crops
       (if default true (aug config)
        then train_transform (default 100%Z (crop_input_size config)) 5
        else val_transform (default 100%Z (crop_input_size config))) true)
    (cfg_batch_size config) (cfg_num_workers config)
    (if sample_batch config then Some smp else None)
    (if sample_batch config then false else true)
  = Raise e →
  main eval_average_metrics_wstd args config loaded_train_crops
    loaded_val_crops model w = Raise e.
Proof.
  intros Hrun1 Hrun2 Hs Hl. unfold main. cbv zeta.
  rewrite (bind_Ok _ _ _ _ _ Hrun1). cbv beta.
  rewrite (bind_Ok _ _ _ _ _ Hrun2). cbv beta.
  rewrite (bind_Ok _ _ _ _ _ (lift_result_Ok _ w2 _ Hs)). cbv beta.
  by rewrite (bind_Raise _ _ _ _ (lift_result_Raise _ w2 _ Hl)).
Qed.

Lemma subsample_step_total (sd : option Z) (crops : list CellCrop) (w : World) :
  (∃ out w',
     match sd with
     | Some size => with_rng (subsample_const_size crops size)
     | None => ret crops
     end w = Ok (out, w')) ∨
  (∃ e,
     match sd with
     | Some size => with_rng (subsample_const_size crops size)
     | None => ret crops
     end w = Raise e).
Proof.
  destruct (subsample_step_outcome sd crops w)
    as [(out & w' & Hrun & _)|[msg Hrun]]; [left|right]; eauto.
Qed.

(** X21: with a batch size that is not positive or a negative number of
    workers [main] never returns a report and never starts the evaluation:
    it raises an error that does not depend on the aggregator (the error of
    an earlier step, or the value error of the loader constructor). *)
Theorem main_rejected_loader_config (args : Args) (config : Config)
  (loaded_train_crops loaded_val_crops : list CellCrop)
  (model : Model) (w : World) :
  (cfg_batch_size config ≤ 0)%Z ∨ (cfg_num_workers config < 0)%Z →
  ∃ e, ∀ eval_average_metrics_wstd : Aggregator,
    main eval_average_metrics_wstd args config loaded_train_crops
      loaded_val_crops model w = Raise e.
Proof.
  intros Hbad.
  destruct (subsample_step_total (size_data config)
              (filter (λ c, (0 ≤ _label c)%Z) loaded_train_crops) w)
    as [(tc & w1 & Hrun1)|[e Hrun1]].
  2:{ exists e. intros agg. by apply main_raise_train. }
  destruct (subsample_step_total (size_data config)
              (filter (λ c, (0 ≤ _label c)%Z) loaded_val_crops) w1)
    as [(vc & w2 & Hrun2)|[e Hrun2]].
  2:{ exists e. intros agg. by eapply main_raise_val. }
  destruct (define_sampler (R := float) tc (hierarchy_match config))
    as [smp|e] eqn:Hs.
  2:{ exists e. intros agg. by eapply main_raise_sampler. }
  destruct (new_DataLoader_Raise
              (mkDataset tc
                 (if default true (aug config)
                  then train_transform (default 100%Z (crop_input_size config)) 5
                  else val_transform (default 100%Z (crop_input_size config)))
                 true)
              (cfg_batch_size config) (cfg_num_workers config)
              (if sample_batch config then Some smp else None)
              (if sample_batch config then false else true) Hbad) as [msg Hl].
  exists (ValueError msg). intros agg. by eapply main_raise_loader.
Qed.

Lemma main_rejected_loader_config_witness :
  ∃ e, ∀ eval_average_metrics_wstd : Aggregator,
    main eval_average_metrics_wstd scenario_args
      (mkConfig 0 (-3) true None (Some 2%Z) None None)
      population_3_2 population_11_4 scenario_model world0 = Raise e.
Proof.
  apply (main_rejected_loader_config scenario_args
           (mkConfig 0 (-3) true None (Some 2%Z) None None)
           population_3_2 population_11_4 scenario_model world0).
  left. simpl. lia.
Defined.

(** The loader constructor is reached on the scenario inputs: the error is
    the one for the number of workers, which is checked first. *)
Example loader_config_scenario :
  main scenario_aggregator scenario_args
    (mkConfig 0 (-3) true None (Some 2%Z) None None)
    population_3_2 population_11_4 scenario_model world0
  = Raise (ValueError
      "num_workers option should be non-negative; use num_workers=0 to disable multiprocessing.") ∧
  main scenario_aggregator scenario_args
    (mkConfig 0 0 true None (Some 2%Z) None None)
    population_3_2 population_11_4 scenario_model world0
  = Raise (ValueError
      "batch_size should be a positive integer value, but got batch_size=0").
Proof. split; by vm_compute. Qed.

(** ** The report *)

Lemma column_Some_names (name : string) (cols : list (string * list cell)) col :
  column name cols = Some col → name ∈ cols.*1.
Proof.
  intros Hc. destruct (decide (name ∈ cols.*1)); [done|].
  by rewrite column_fresh in Hc.
Qed.

Lemma bind_singletons {A B} (f : A → B) (g : A → list B) (l : list A) :
  Forall (λ x, g x = [f x]) l → l ≫= g = f <$> l.
Proof.
  induction 1 as [|x l Hx _ IH]; [done|]. by rewrite bind_cons, Hx, IH.
Qed.

Lemma Forall2_Forall_right {A B} (P : A → B → Prop) (Q : B → Prop)
  (l : list A) (k : list B) :
  Forall2 P l k → (∀ x y, x ∈ l → P x y → Q y) → Forall Q k.
Proof.
  intros HP HQ. induction HP as [|x y l k Hxy _ IH]; constructor.
  - apply (HQ x); [by left|done].
  - apply IH. intros x' y' Hx'. apply HQ. by right.
Qed.

(** X19: every row of the report carries the same model name and the same
    parameter count. *)
Theorem report_metadata (eval_average_metrics_wstd : Aggregator) (args : Args)
  (model : Model) (pairs : list (string * DataLoader)) (w : World) :
  pairs ≠ [] →
  Forall (λ p, aggregator_ok eval_average_metrics_wstd p.2 model 400) pairs →
  ∃ evaluated_metrics df w',
    get_metrics_each eval_average_metrics_wstd args model pairs w
    = Ok (evaluated_metrics, w') ∧
    pd.concat evaluated_metrics = Ok df ∧
    column "model" (columns df)
    = Some (replicate (length pairs) (Str (modelname args))) ∧
    column "params" (columns df)
    = Some (replicate (length pairs) (Int (Z.of_nat (numparams model)))).
Proof.
  intros Hne Hall.
  destruct (get_metrics_each_spec eval_average_metrics_wstd args model pairs w Hall)
    as (rows & w' & Hrun & _ & Hrows).
  apply merged_rows_facts in Hrows.
  pose proof (Forall2_length _ _ _ Hrows) as Hlen.
  assert (Hfacts : Forall (λ row,
      NoDup (names row) ∧
      column "model" (columns row) = Some [Str (modelname args)] ∧
      column "params" (columns row) = Some [Int (Z.of_nat (numparams model))])
      rows).
  { eapply Forall2_Forall_right; [exact Hrows|].
    by intros p row _ (_ & _ & ? & _ & ? & ?). }
  assert (Hrne : rows ≠ []) by (intros ->; by destruct pairs).
  assert (Hnd : Forall (λ g, NoDup (names g)) rows).
  { eapply Forall_impl; [exact Hfacts|]. by intros row (? & _). }
  destruct (concat_spec rows "model" Hrne Hnd) as (df & Hdf & _ & Hmodel).
  { eapply Forall_impl; [exact Hfacts|].
    intros row (_ & Hc & _). by eapply column_Some_names. }
  destruct (concat_spec rows "params" Hrne Hnd) as (df' & Hdf' & _ & Hparams).
  { eapply Forall_impl; [exact Hfacts|].
    intros row (_ & _ & Hc). by eapply column_Some_names. }
  assert (df' = df) as -> by congruence.
  exists rows, df, w'. split; [done|].
  split; [done|]. rewrite Hmodel, Hparams, Hlen.
  split; f_equal.
  - rewrite (bind_singletons (λ _, Str (modelname args))).
    + by apply const_fmap.
    + eapply Forall_impl; [exact Hfacts|]. intros row (_ & Hc & _).
      unfold pd.column_or_missing. by rewrite Hc.
  - rewrite (bind_singletons (λ _, Int (Z.of_nat (numparams model)))).
    + by apply const_fmap.
    + eapply Forall_impl; [exact Hfacts|]. intros row (_ & _ & Hc).
      unfold pd.column_or_missing. by rewrite Hc.
Qed.

Lemma report_metadata_witness :
  ∃ evaluated_metrics df w',
    get_metrics_each scenario_aggregator scenario_args scenario_model
      [("train", scenario_loader population_3_2);
       ("val", scenario_loader population_11_4)] world0
    = Ok (evaluated_metrics, w') ∧
    pd.concat evaluated_metrics = Ok df ∧
    column "model" (columns df)
    = Some (replicate
              (length [("train", scenario_loader population_3_2);
                       ("val", scenario_loader population_11_4)])
              (Str (modelname scenario_args))) ∧
    column "params" (columns df)
    = Some (replicate
              (length [("train", scenario_loader population_3_2);
                       ("val", scenario_loader population_11_4)])
              (Int (Z.of_nat (numparams scenario_model)))).
Proof.
  apply (report_metadata scenario_aggregator scenario_args scenario_model
           [("train", scenario_loader population_3_2);
            ("val", scenario_loader population_11_4)] world0).
  - discriminate.
  - apply Forall_forall. intros p _. apply scenario_aggregator_ok.
Defined.

Lemma length_bind_const {A B} (g : A → list B) (l : list A) (n : nat) :
  Forall (λ x, length (g x) = n) l → length (l ≫= g) = (length l * n)%nat.
Proof.
  induction 1 as [|x l Hx _ IH]; [done|].
  rewrite bind_cons, length_app, Hx, IH. simpl. lia.
Qed.

Lemma merged_row_names (args : Args) (model : Model) (key : string)
  (lee_metrics discrete_metrics : DataFrame) :
  names (merged_row args model key lee_metrics discrete_metrics)
  = names lee_metrics ++ names discrete_metrics
    ++ ["dataset"; "model"; "params"].
Proof. unfold merged_row, names. cbn [columns]. by rewrite !fmap_app. Qed.

(** X20: when the aggregator gives the same column names for every loader,
    whatever the state of the generator, the report has exactly these
    columns: the continuous ones, the discrete ones, then [dataset],
    [model] and [params], each with one cell per (key, loader) pair. *)
Theorem report_columns (eval_average_metrics_wstd : Aggregator) (args : Args)
  (model : Model) (pairs : list (string * DataLoader)) (w : World)
  (names_lee names_discrete : list string) :
  pairs ≠ [] →
  Forall (λ p, aggregator_ok eval_average_metrics_wstd p.2 model 400) pairs →
  Forall (λ p, ∀ family g metrics g',
      eval_average_metrics_wstd p.2 family model 400%Z g = Ok (metrics, g') →
      names metrics
      = match family with
        | get_lee_metrics => names_lee
        | get_discrete_metrics => names_discrete
        end) pairs →
  ∃ evaluated_metrics df w',
    get_metrics_each eval_average_metrics_wstd args model pairs w
    = Ok (evaluated_metrics, w') ∧
    pd.concat evaluated_metrics = Ok df ∧
    names df = names_lee ++ names_discrete ++ ["dataset"; "model"; "params"] ∧
    nrows df = length pairs ∧
    well_formed df.
Proof.
  intros Hne Hall Hnames.
  destruct (get_metrics_each_spec eval_average_metrics_wstd args model pairs w Hall)
    as (rows & w' & Hrun & _ & Hspec).
  pose proof (Forall2_length _ _ _ Hspec) as Hlen.
  set (all_names := names_lee ++ names_discrete ++ ["dataset"; "model"; "params"]).
  assert (Hrows : Forall (λ g, names g = all_names ∧ nrows g = 1%nat ∧ well_formed g)
                    rows).
  { eapply Forall2_Forall_right; [exact Hspec|].
    intros p row Hp (g & disc & lee & g' & (g1 & Hdisc & Hlee) & Hok & ->).
    rewrite Forall_forall in Hnames.
    pose proof (Hnames _ Hp get_lee_metrics g1 lee g' Hlee) as Hl.
    pose proof (Hnames _ Hp get_discrete_metrics g disc g1 Hdisc) as Hd.
    destruct (merged_row_facts args model p.1 _ _ Hok) as (Hrow & Hwf & _).
    rewrite merged_row_names.
    by rewrite Hl, Hd. }
  destruct rows as [|f fs]; [by destruct pairs|].
  apply Forall_cons in Hrows as [(Hf & Hfrow & Hfwf) Hfs].
  exists (f :: fs), (mkDataFrame ((f :: fs) ≫= index)
    (imap (λ i (c : string * list cell),
             (c.1, (f :: fs) ≫= λ g, default [] (snd <$> columns g !! i)))
       (columns f))), w'.
  split; [done|].
  unfold pd.concat. rewrite decide_True.
  2:{ eapply Forall_impl; [exact Hfs|]. intros g (Hg & _). by rewrite Hg, Hf. }
  split; [reflexivity|].
  assert (Hall1 : Forall (λ g, names g = all_names ∧ nrows g = 1%nat ∧ well_formed g)
                    (f :: fs)) by (by apply Forall_cons).
  split; [|split].
  - rewrite <- Hf. unfold names. cbn [columns]. apply list_eq. intros j.
    rewrite !list_lookup_fmap, list_lookup_imap.
    by destruct (columns f !! j).
  - unfold nrows. cbn [index]. rewrite Hlen.
    rewrite (length_bind_const index (f :: fs) 1); [lia|].
    eapply Forall_impl; [exact Hall1|]. by intros g (_ & ? & _).
  - unfold well_formed, nrows. cbn [index columns].
    rewrite (length_bind_const index (f :: fs) 1).
    2:{ eapply Forall_impl; [exact Hall1|]. by intros g (_ & ? & _). }
    apply Forall_lookup. intros i c. rewrite list_lookup_imap.
    destruct (columns f !! i) as [c0|] eqn:Hc0; [|done].
    cbn [fmap option_fmap option_map]. intros [= <-].
    cbn [snd].
    apply (length_bind_const (λ g, default [] (snd <$> columns g !! i))
             (f :: fs) 1).
    eapply Forall_impl; [exact Hall1|]. intros g (Hg & Hgrow & Hgwf).
    assert (Hi : (i < length (columns g))%nat).
    { apply lookup_lt_Some in Hc0.
      assert (Hl : length (names g) = length (names f)) by (by rewrite Hg, Hf).
      unfold names in Hl. rewrite !length_fmap in Hl. lia. }
    destruct (lookup_lt_is_Some_2 _ _ Hi) as [cg Hcg]. rewrite Hcg. cbn.
    unfold well_formed in Hgwf. rewrite Forall_forall in Hgwf.
    rewrite (Hgwf cg) by (by eapply list_elem_of_lookup_2). done.
Qed.

Lemma report_columns_witness :
  ∃ evaluated_metrics df w',
    get_metrics_each scenario_aggregator scenario_args scenario_model
      [("train", scenario_loader population_3_2);
       ("val", scenario_loader population_11_4)] world0
    = Ok (evaluated_metrics, w') ∧
    pd.concat evaluated_metrics = Ok df ∧
    names df = ["lee_a"; "lee_b"] ++ ["disc_x"] ++ ["dataset"; "model"; "params"] ∧
    nrows df = length [("train", scenario_loader population_3_2);
                       ("val", scenario_loader population_11_4)] ∧
    well_formed df.
Proof.
  apply (report_columns scenario_aggregator scenario_args scenario_model
           [("train", scenario_loader population_3_2);
            ("val", scenario_loader population_11_4)] world0
           ["lee_a"; "lee_b"] ["disc_x"]).
  - discriminate.
  - apply Forall_forall. intros p _. apply scenario_aggregator_ok.
  - apply Forall_forall. intros p _ family g metrics g'.
    destruct family; intros [= <- _]; reflexivity.
Defined.
